(** * react-native-chessboard: move orchestration and dual-mode validation

    A shallow embedding of the board-operations, board-refs and
    board-promotion contexts.  The chess rules engine (chess.js) is an
    external collaborator: it appears as a type class of fallible
    operations over an abstract engine state.  Component state (shared
    values, React state, the engine object) is threaded explicitly
    through a small state-and-exception monad; whatever the component
    hands to a collaborator (host callback, highlight requests, board
    publication, engine mutations) is recorded in a log. *)

From Stdlib Require Import String Ascii List ZArith QArith Qround Bool Lia.
From Stdlib Require Import DecimalString.
From Stdlib Require Import Floats Uint63.
Import ListNotations.

Local Open Scope string_scope.
Local Open Scope Z_scope.

Set Implicit Arguments.

(** ** Data of chess.js and of [types.ts] *)

(** A square is a string label, as in chess.js ([Square]). *)
Definition Square := string.

Inductive Color := WHITE | BLACK.

Inductive PieceSymbol := PAWN | KNIGHT | BISHOP | ROOK | QUEEN | KING.

Record Piece := { ptype : PieceSymbol; pcolor : Color }.

(** [ReturnType<Chess['board']>]: a matrix of optional pieces, row 0 being
    rank 8. *)
Definition Board := list (list (option Piece)).

(** [Vector] of [types.ts]; pixel coordinates are rationals. *)
Record Vector := { vx : Q; vy : Q }.

(** [Vector] as the running code has it: both coordinates are IEEE 754
    doubles (JavaScript numbers). *)
Record FloatVector := { fx : float; fy : float }.

Definition Color_eqb (a b : Color) : bool :=
  match a, b with
  | WHITE, WHITE | BLACK, BLACK => true
  | _, _ => false
  end.

Definition PieceSymbol_eqb (a b : PieceSymbol) : bool :=
  match a, b with
  | PAWN, PAWN | KNIGHT, KNIGHT | BISHOP, BISHOP
  | ROOK, ROOK | QUEEN, QUEEN | KING, KING => true
  | _, _ => false
  end.

(** A JavaScript call either returns or throws. *)
Inductive result (A : Type) :=
| Ok (a : A)
| Throw (e : string).
Arguments Ok {A} a.
Arguments Throw {A} e.

(** ** Square labels *)

Module Label.

(** [String.fromCharCode(97 + x)] (code units above 255 do not occur on a
    board). *)
Definition fromCharCode (n : Z) : string :=
  String (ascii_of_nat (Z.to_nat n)) EmptyString.

(** Template-literal rendering of an integer: [`${n}`]. *)
Definition show (n : Z) : string := NilZero.string_of_int (Z.to_int n).

(** [`${col}${row}`] with [col = String.fromCharCode(97 + x)] and
    [row = `${8 - y}`]: the label built from matrix-style indices in
    [findKing] and [generateBoardRefs]. *)
Definition of_indices (x y : Z) : Square := fromCharCode (97 + x) ++ show (8 - y).

(** File index (0 for a) and rank (1..8) of a well-formed label. *)
Definition parse (s : Square) : option (Z * Z) :=
  match s with
  | String c (String r EmptyString) =>
      let f := Z.of_nat (nat_of_ascii c) - 97 in
      let k := Z.of_nat (nat_of_ascii r) - 48 in
      if (0 <=? f) && (f <? 8) && (1 <=? k) && (k <=? 8) then Some (f, k) else None
  | _ => None
  end.

Definition is_square (s : Square) : bool :=
  match parse s with Some _ => true | None => false end.

(** [to.includes(c)] for a one-character needle. *)
Fixpoint includes (c : ascii) (s : string) : bool :=
  match s with
  | EmptyString => false
  | String d s' => Ascii.eqb c d || includes c s'
  end.

Definition range (n : nat) : list Z := map Z.of_nat (seq 0 n).

(** The 64 squares in the order [findKing] visits them: a8, a7, ..., a1, b8, ... *)
Definition all_squares : list Square :=
  flat_map (fun x => map (fun y => of_indices x y) (range 8)) (range 8).

End Label.

(** ** CoordinateMapper (module [notation]) *)

Module CoordinateMapper.

(** Modelled from the spec: the [notation] module
    ([useReversePiecePosition], giving [toTranslation] and its inverse) is
    imported by the board-operations context but is not among the
    sources.  The spec asks for two pure, orientation-aware functions
    [pixelOf] and [squareOf]; the only visible caller ([isPromoting])
    divides the pixel by [pieceSize] and floors it to obtain the column
    and the row of the square in [chess.board()].  [pixelOf] is the
    top-left corner of the square's cell. *)
Definition pixelOf (pieceSize : Q) (flipped : bool) (s : Square) : result Vector :=
  match Label.parse s with
  | Some (f, k) =>
      let col := if flipped then 7 - f else f in
      let row := if flipped then k - 1 else 8 - k in
      Ok {| vx := inject_Z col * pieceSize; vy := inject_Z row * pieceSize |}
  | None => Throw ("Invalid notation: " ++ s)
  end.

(** Modelled from the spec: inverse of [pixelOf]; a pixel outside the
    board yields no square, never an error. *)
Definition squareOf (pieceSize : Q) (flipped : bool) (v : Vector) : option Square :=
  let col := Qfloor (vx v / pieceSize) in
  let row := Qfloor (vy v / pieceSize) in
  if (0 <=? col) && (col <? 8) && (0 <=? row) && (row <? 8) then
    Some (if flipped then Label.of_indices (7 - col) (7 - row)
          else Label.of_indices col row)
  else None.

End CoordinateMapper.

(** ** The rules engine (chess.js) and the helper [getChessboardState] *)

(** Argument of [chess.move({ from, to, promotion })]. *)
Record MoveRequest := {
  req_from : Square;
  req_to : Square;
  req_promotion : option PieceSymbol
}.

(** The fields of a chess.js [Move] that the component reads or fabricates. *)
Record Move := {
  m_from : Square;
  m_to : Square;
  m_promotion : option PieceSymbol;
  m_flags : string;
  m_piece : PieceSymbol;
  m_san : string;
  m_lan : string;
  m_before : string;
  m_after : string
}.

(** [ChessboardState], the result of [getChessboardState]. *)
Record ChessboardState := {
  isCheck : bool;
  isCheckmate : bool;
  isDraw : bool;
  isStalemate : bool;
  isThreefoldRepetition : bool;
  isInsufficientMaterial : bool;
  isGameOver : bool;
  fen : string
}.

(** The call surface of the engine object [chess].  Queries read the engine
    state; mutators return the state they leave behind together with their
    outcome.  Any call may throw.  [chess.move] may also return [null]
    (the component tests [move == null]); [getChessboardState(chess)] is a
    helper of the repository that only queries the engine. *)
Class ChessEngine (St : Type) := {
  chess_turn : St -> result Color;
  chess_board : St -> result Board;
  chess_get : St -> Square -> result (option Piece);
  chess_fen : St -> result string;
  chess_isCheckmate : St -> result bool;
  chess_moves : St -> Square -> result (option (list string));
  getChessboardState : St -> result ChessboardState;
  chess_move : St -> MoveRequest -> St * result (option Move);
  chess_undo : St -> St * result unit;
  chess_reset : St -> St * result unit;
  chess_load : St -> string -> bool -> St * result unit
}.

(** ** Component state and what the component emits *)

(** Payload of the host's [onMove] callback:
    [{ move, state: { ...chessboardState, in_promotion } }]. *)
Record MoveState := { status : ChessboardState; in_promotion : bool }.
Record MovePayload := { move : Move; state : MoveState }.

(** The closure handed to [showPromotionDialog] by [onMove],
    [(piece) => { moveProgrammatically(from, to, piece); enable(true) }],
    represented by the variables it captures. *)
Inductive OnSelect :=
| ResumeMove (from to : Square).

(** [BoardPromotionContextState]: the single promotion slot. *)
Record BoardPromotionContextState := {
  isDialogActive : bool;
  dialog_type : option Color;
  dialog_onSelect : option OnSelect
}.

(** What the component asks of its collaborators, in order.  Mutating
    engine calls and the legal-moves query are logged; the other engine
    queries only read the engine state.  The controller and the piece refs
    are taken to be mounted: their calls are requests to the rendering
    layer and are recorded, not executed.  React state setters ([setBoard],
    [setDialog]) take effect at once. *)
Inductive Event :=
| EngineMove (req : MoveRequest)        (* chess.move(...) *)
| EngineUndo                            (* chess.undo() *)
| EngineReset                           (* chess.reset() *)
| EngineLoad (f : string)               (* chess.load(fen, { skipValidation }) *)
| EngineMoves (sq : Square)             (* chess.moves({ square }) *)
| Callback (p : MovePayload)            (* onChessboardMoveCallback(...) *)
| Highlight (sq : Square) (color : option string)  (* controller.highlight *)
| ResetAllHighlights                    (* controller.resetAllHighlightedSquares *)
| Enable (sq : Square) (b : bool)       (* pieceRefs.current[to].current.enable *)
| SetBoard (b : Board)                  (* setBoard(...) *)
| Resume (k : OnSelect) (p : PieceSymbol). (* dialog.onSelect(piece) *)

(** The props the contexts read. *)
Record ChessboardProps := {
  pieceSize : float;
  skipValidation : bool;
  checkmateHighlight : string;
  onChessboardMoveCallback : option (MovePayload -> result unit)
}.

Record World (St : Type) := {
  chess : St;                               (* the engine object *)
  turn_value : Color;                       (* turn.value *)
  board_state : Board;                      (* the BoardContext value *)
  selectableSquares : list Square;          (* selectableSquares.value *)
  selectedSquare : option Square;           (* selectedSquare.value *)
  dialog : BoardPromotionContextState;      (* useState of the promotion context *)
  log : list Event
}.

(** The all-false snapshot substituted for a failed [getChessboardState]. *)
Definition default_state : ChessboardState :=
  {| isCheck := false; isCheckmate := false; isDraw := false;
     isStalemate := false; isThreefoldRepetition := false;
     isInsufficientMaterial := false; isGameOver := false; fen := "" |}.

(** The mock move object fabricated when [chess.move] throws under
    [skipValidation]. *)
Definition mock_move (from to : Square) (promotionPiece : option PieceSymbol)
    (before after : string) : Move :=
  {| m_from := from; m_to := to; m_promotion := promotionPiece;
     m_flags := ""; m_piece := PAWN;
     m_san := from ++ "-" ++ to; m_lan := from ++ to;
     m_before := before; m_after := after |}.

(** [l[i]] for a JavaScript array: [undefined] out of range. *)
Definition js_index {A : Type} (l : list A) (i : Z) : option A :=
  if i <? 0 then None else nth_error l (Z.to_nat i).

(** [board[y]?.[x]], with [null] and [undefined] merged. *)
Definition cell (b : Board) (y x : Z) : option Piece :=
  match js_index b y with
  | Some row => match js_index row x with Some c => c | None => None end
  | None => None
  end.

(** [Math.floor(d)] used as an array index.  A finite double is
    [mantissa * 2^exponent], so its floor is computed exactly; [NaN] and the
    infinities index no element. *)
Definition Math_floor (d : float) : option Z :=
  match Prim2SF d with
  | S754_zero _ => Some 0
  | S754_finite s m e =>
      let z := if s then Z.neg m else Z.pos m in
      Some (if 0 <=? e then Z.shiftl z e else Z.shiftr z (- e))
  | S754_infinity _ | S754_nan => None
  end.

(** [board[y]?.[x]] for indices obtained from [Math.floor]. *)
Definition cell_at (b : Board) (y x : option Z) : option Piece :=
  match y, x with
  | Some y, Some x => cell b y x
  | _, _ => None
  end.

(** The double of a small non-negative integer (a file or row index). *)
Definition float_of_index (z : Z) : float := PrimFloat.of_uint63 (Uint63.of_Z z).

(** The piece standing on a square of a position: the entry of the matrix
    at the row of the square's rank (row 0 is rank 8) and the column of its
    file, read with the list functions, independently of [cell]. *)
Definition standing_on (b : Board) (s : Square) : option Piece :=
  match Label.parse s with
  | Some (f, k) =>
      match nth_error b (Z.to_nat (8 - k)) with
      | Some row =>
          match nth_error row (Z.to_nat f) with
          | Some (Some piece) => Some piece
          | _ => None
          end
      | None => None
      end
  | None => None
  end.

(** The piece standing on a square of a board matrix: row 0 is rank 8,
    column 0 is file a. *)
Definition piece_at (b : Board) (s : Square) : option Piece :=
  match Label.parse s with
  | Some (f, k) => cell b (8 - k) f
  | None => None
  end.

(** The rank (1..8) of a square. *)
Definition rank (s : Square) : option Z :=
  match Label.parse s with
  | Some (_, k) => Some k
  | None => None
  end.

(** [s.split(c)] for a one-character separator. *)
Fixpoint split (c : ascii) (s : string) : list string :=
  match s with
  | EmptyString => [EmptyString]
  | String d s' =>
      if Ascii.eqb c d then EmptyString :: split c s'
      else match split c s' with
           | hd :: tl => String d hd :: tl
           | [] => [String d EmptyString]
           end
  end.

(** The log entries of a given kind. *)
Definition engine_moves (l : list Event) : list MoveRequest :=
  flat_map (fun ev => match ev with EngineMove r => [r] | _ => [] end) l.

Definition engine_moves_queries (l : list Event) : list Square :=
  flat_map (fun ev => match ev with EngineMoves s => [s] | _ => [] end) l.

Definition callbacks (l : list Event) : list MovePayload :=
  flat_map (fun ev => match ev with Callback p => [p] | _ => [] end) l.

Definition highlights (l : list Event) : list (Square * option string) :=
  flat_map (fun ev => match ev with Highlight s c => [(s, c)] | _ => [] end) l.

Definition published (l : list Event) : list Board :=
  flat_map (fun ev => match ev with SetBoard b => [b] | _ => [] end) l.

Definition resumed (l : list Event) : list (OnSelect * PieceSymbol) :=
  flat_map (fun ev => match ev with Resume k p => [(k, p)] | _ => [] end) l.

(** ** The component: a state-and-exception monad over [World] *)

Section Component.

Context {St : Type} {engine : ChessEngine St}.

(** Result of [useChessboardProps()]. *)
Variable props : ChessboardProps.

(** A computation runs on the current world and returns the world it
    leaves behind together with its outcome; what was written before a
    throw stays written. *)
Definition M (A : Type) : Type := World St -> World St * result A.

Definition ret {A : Type} (a : A) : M A := fun w => (w, Ok a).

Definition throw {A : Type} (e : string) : M A := fun w => (w, Throw e).

Definition bind {A B : Type} (m : M A) (f : A -> M B) : M B :=
  fun w =>
    match m w with
    | (w', Ok a) => f a w'
    | (w', Throw e) => (w', Throw e)
    end.

(** [try { m } catch (error) { h error }]. *)
Definition try_catch {A : Type} (m : M A) (h : string -> M A) : M A :=
  fun w =>
    match m w with
    | (w', Ok a) => (w', Ok a)
    | (w', Throw e) => h e w'
    end.

(** The recurring handler [catch (error) { if (!skipValidation) throw error; }],
    with the value the surrounding code continues with. *)
Definition unless_skip {A : Type} (dflt : A) (e : string) : M A :=
  if negb (skipValidation props) then throw e else ret dflt.

Definition lift {A : Type} (r : result A) : M A := fun w => (w, r).

(** A read-only call on the engine object. *)
Definition query {A : Type} (q : St -> result A) : M A :=
  fun w => (w, q (chess w)).

Definition emit (ev : Event) : M unit :=
  fun w =>
    ({| chess := chess w; turn_value := turn_value w;
        board_state := board_state w;
        selectableSquares := selectableSquares w;
        selectedSquare := selectedSquare w;
        dialog := dialog w; log := log w ++ [ev] |}, Ok tt).

(** A mutating call on the engine object, logged. *)
Definition mutate {A : Type} (ev : Event) (f : St -> St * result A) : M A :=
  fun w =>
    let (e', r) := f (chess w) in
    ({| chess := e'; turn_value := turn_value w;
        board_state := board_state w;
        selectableSquares := selectableSquares w;
        selectedSquare := selectedSquare w;
        dialog := dialog w; log := log w ++ [ev] |}, r).

Definition set_turn (t : Color) : M unit :=
  fun w =>
    ({| chess := chess w; turn_value := t;
        board_state := board_state w;
        selectableSquares := selectableSquares w;
        selectedSquare := selectedSquare w;
        dialog := dialog w; log := log w |}, Ok tt).

(** [setBoard(b)]: whole-board replace, seen by the rendering layer. *)
Definition setBoard (b : Board) : M unit :=
  fun w =>
    ({| chess := chess w; turn_value := turn_value w;
        board_state := b;
        selectableSquares := selectableSquares w;
        selectedSquare := selectedSquare w;
        dialog := dialog w; log := log w ++ [SetBoard b] |}, Ok tt).

Definition set_selectableSquares (l : list Square) : M unit :=
  fun w =>
    ({| chess := chess w; turn_value := turn_value w;
        board_state := board_state w;
        selectableSquares := l;
        selectedSquare := selectedSquare w;
        dialog := dialog w; log := log w |}, Ok tt).

Definition set_selectedSquare (s : option Square) : M unit :=
  fun w =>
    ({| chess := chess w; turn_value := turn_value w;
        board_state := board_state w;
        selectableSquares := selectableSquares w;
        selectedSquare := s;
        dialog := dialog w; log := log w |}, Ok tt).

Definition setDialog (d : BoardPromotionContextState) : M unit :=
  fun w =>
    ({| chess := chess w; turn_value := turn_value w;
        board_state := board_state w;
        selectableSquares := selectableSquares w;
        selectedSquare := selectedSquare w;
        dialog := d; log := log w |}, Ok tt).

Definition get_dialog : M BoardPromotionContextState :=
  fun w => (w, Ok (dialog w)).

End Component.

Declare Scope chess_scope.
Delimit Scope chess_scope with chess.
Notation "x <- m ;; k" := (bind m (fun x => k))
  (at level 61, m at next level, right associativity) : chess_scope.
Notation "m ;; k" := (bind m (fun _ => k))
  (at level 61, right associativity) : chess_scope.
Local Open Scope chess_scope.

Section Operations.

Context {St : Type} {engine : ChessEngine St}.
Variable props : ChessboardProps.

(** *** board-operations context *)

(** Modelled from the spec: [toTranslation] of [useReversePiecePosition()]
    (module [notation], not among the sources).  It is the pixel of the
    square, [CoordinateMapper.pixelOf] for the unflipped board, as the
    running code computes it: the column and the row of the cell, each
    multiplied by [pieceSize] in double arithmetic.  A string that is not a
    square label throws. *)
Definition toTranslation (s : Square) : result FloatVector :=
  match Label.parse s with
  | Some (f, k) =>
      Ok {| fx := float_of_index f * pieceSize props;
            fy := float_of_index (8 - k) * pieceSize props |}
  | None => Throw ("Invalid notation: " ++ s)
  end.

Definition isPromoting (from to : Square) : M (St := St) bool :=
  if negb (Label.includes "8" to) && negb (Label.includes "1" to) then ret false
  else
    try_catch
      (val <- lift (toTranslation from) ;;
       let x := Math_floor (fx val / pieceSize props) in
       let y := Math_floor (fy val / pieceSize props) in
       board <- query chess_board ;;
       ret (match cell_at board y x with
            | Some piece =>
                PieceSymbol_eqb (ptype piece) PAWN &&
                ((Label.includes "8" to && Color_eqb (pcolor piece) WHITE) ||
                 (Label.includes "1" to && Color_eqb (pcolor piece) BLACK))
            | None => false
            end))
      (fun error => if skipValidation props then ret false else throw error).

(** The test [piece?.color === type.charAt(0) && piece.type === type.charAt(1)]
    of [findKing], for [type] one of ['wk'] and ['bk']. *)
Definition is_king_of (c : Color) (p : option Piece) : bool :=
  match p with
  | Some piece => Color_eqb (pcolor piece) c && PieceSymbol_eqb (ptype piece) KING
  | None => false
  end.

(** The inner loop of [findKing]: row [x] of the matrix, indices [ys]. *)
Fixpoint scan_row (e : St) (c : Color) (x : Z) (ys : list Z)
    (rest : result (option Square)) : result (option Square) :=
  match ys with
  | [] => rest
  | y :: ys' =>
      let square := Label.of_indices x y in
      match chess_get e square with
      | Throw err => Throw err
      | Ok piece =>
          if is_king_of c piece then Ok (Some square)
          else scan_row e c x ys' rest
      end
  end.

(** The outer loop of [findKing], over the rows paired with their index. *)
Fixpoint scan_rows (e : St) (c : Color) (x : Z) (rows : list (list (option Piece)))
    : result (option Square) :=
  match rows with
  | [] => Ok None
  | row :: rows' =>
      scan_row e c x (Label.range (length row)) (scan_rows e c (x + 1) rows')
  end.

(** The squares [scan_rows] asks the engine about, in order. *)
Fixpoint visited (x : Z) (rows : list (list (option Piece))) : list Square :=
  match rows with
  | [] => []
  | row :: rows' =>
      (map (Label.of_indices x) (Label.range (length row)) ++ visited (x + 1) rows')%list
  end.

(** Every square of [l] can be read from the engine, and [k] is the one
    holding the king of colour [c]. *)
Definition king_only_on (e : St) (c : Color) (k : Square) (l : list Square) : Prop :=
  forall s, In s l ->
    exists p, chess_get e s = Ok p /\ (is_king_of c p = true <-> s = k).

(** When the engine reports checkmate, the mated king is on the board:
    the side to move and the 8 x 8 board can be read, and the engine
    reports the king of the side to move on one of the 64 squares. *)
Definition mated_king_on_board (e : St) : Prop :=
  chess_isCheckmate e = Ok true ->
  exists (t : Color) (b : Board) (k : Square),
    chess_turn e = Ok t /\ chess_board e = Ok b /\
    length b = 8%nat /\ Forall (fun row => length row = 8%nat) b /\
    In k Label.all_squares /\ king_only_on e t k Label.all_squares.

(** The body of the [try] block of [findKing]. *)
Definition findKing_scan (c : Color) (e : St) : result (option Square) :=
  match chess_board e with
  | Throw err => Throw err
  | Ok board => scan_rows e c 0 board
  end.

(** [findKing(type)] for [type = 'wk'] ([WHITE]) or ['bk'] ([BLACK]). *)
Definition findKing (c : Color) : M (St := St) (option Square) :=
  try_catch (query (findKing_scan c))
            (fun error => if skipValidation props then ret None else throw error).

Definition run_callback (p : MovePayload) : M (St := St) unit :=
  match onChessboardMoveCallback props with
  | Some cb => emit (Callback p) ;; lift (cb p)
  | None => ret tt
  end.

Definition moveProgrammatically (from to : Square)
    (promotionPiece : option PieceSymbol) : M (St := St) unit :=
  let req := {| req_from := from; req_to := to; req_promotion := promotionPiece |} in
  try_catch
    (move <-
       (if skipValidation props then
          try_catch
            (mutate (EngineMove req) (fun e => chess_move e req))
            (fun _ =>
               before <- query chess_fen ;;
               after <- query chess_fen ;;
               ret (Some (mock_move from to promotionPiece before after)))
        else mutate (EngineMove req) (fun e => chess_move e req)) ;;
     try_catch (t <- query chess_turn ;; set_turn t) (unless_skip props tt) ;;
     match move with
     | None => ret tt
     | Some mv =>
         isCheckmate <-
           try_catch (query chess_isCheckmate) (unless_skip props false) ;;
         let finish : M unit :=
           chessboardState <-
             try_catch (query getChessboardState)
                       (fun error => if skipValidation props then ret default_state else throw error) ;;
           run_callback
             {| move := mv;
                state := {| status := chessboardState;
                            in_promotion :=
                              match promotionPiece with Some _ => true | None => false end |} |} ;;
           try_catch (b <- query chess_board ;; setBoard b) (unless_skip props tt)
         in
         if isCheckmate then
           t <- query chess_turn ;;
           square <- findKing (if Color_eqb t BLACK then BLACK else WHITE) ;;
           match square with
           | None => ret tt
           | Some sq =>
               emit (Highlight sq (Some (checkmateHighlight props))) ;;
               finish
           end
         else finish
     end)
    (unless_skip props tt).

(** *** board-promotion context *)

Definition showPromotionDialog (type : Color) (onSelect : option OnSelect)
    : M (St := St) unit :=
  setDialog {| isDialogActive := true; dialog_type := Some type;
               dialog_onSelect := onSelect |}.

(** The slot once a request has been resolved. *)
Definition closed_dialog : BoardPromotionContextState :=
  {| isDialogActive := false; dialog_type := None; dialog_onSelect := None |}.

(** Running the stored closure. *)
Definition run_onSelect (k : OnSelect) (piece : PieceSymbol) : M (St := St) unit :=
  match k with
  | ResumeMove from to =>
      moveProgrammatically from to (Some piece) ;;
      emit (Enable to true)
  end.

(** [onSelect] of the promotion context, called by the dialog. *)
Definition onSelect (piece : PieceSymbol) : M (St := St) unit :=
  d <- get_dialog ;;
  match dialog_onSelect d with
  | Some k => emit (Resume k piece) ;; run_onSelect k piece
  | None => ret tt
  end ;;
  setDialog closed_dialog.

(** *** board-operations context, continued *)

Definition onMove (from to : Square) : M (St := St) unit :=
  set_selectableSquares [] ;;
  set_selectedSquare None ;;
  emit ResetAllHighlights ;;
  emit (Highlight from None) ;;
  emit (Highlight to None) ;;
  in_promotion <- isPromoting from to ;;
  if negb in_promotion then moveProgrammatically from to None
  else
    emit (Enable to false) ;;
    type <- query chess_turn ;;
    showPromotionDialog type (Some (ResumeMove from to)).

(** The function mapped over [validSquares] in [onSelectPiece]. *)
Definition target_square (e : St) (square : string) : string :=
  if String.eqb square "O-O" then
    match chess_turn e with
    | Ok WHITE => "g1"
    | Ok BLACK => "g8"
    | Throw _ => square
    end
  else if String.eqb square "O-O-O" then
    match chess_turn e with
    | Ok WHITE => "c1"
    | Ok BLACK => "c8"
    | Throw _ => square
    end
  else last (split "x" square) square.

Definition onSelectPiece (square : Square) : M (St := St) unit :=
  set_selectedSquare (Some square) ;;
  validSquares <-
    (if skipValidation props then ret []
     else
       try_catch
         (r <- mutate (EngineMoves square) (fun e => (e, chess_moves e square)) ;;
          ret (match r with Some l => l | None => [] end))
         (fun _ => ret [])) ;;
  fun w => set_selectableSquares (map (target_square (chess w)) validSquares) w.

(** *** board-refs context ([ChessboardRef]) *)

Definition undo : M (St := St) unit :=
  try_catch
    (mutate EngineUndo chess_undo ;;
     b <- query chess_board ;;
     setBoard b)
    (unless_skip props tt).

Definition getState : M (St := St) ChessboardState :=
  try_catch (query getChessboardState)
            (fun error => if skipValidation props then ret default_state else throw error).

Definition resetBoard (fen : option string) : M (St := St) unit :=
  try_catch
    (mutate EngineReset chess_reset ;;
     match fen with
     | Some f =>
         if String.eqb f "" then ret tt
         else mutate (EngineLoad f) (fun e => chess_load e f (skipValidation props))
     | None => ret tt
     end ;;
     b <- query chess_board ;;
     setBoard b)
    (unless_skip props tt).

End Operations.

(** ** A small engine to run the component on

    A stand-in for chess.js with a deliberately simple notion of legality:
    a move is accepted when [from] holds a piece of the side to move and
    [to] is another square not held by a piece of the same side.  It
    rejects either by throwing (chess.js 1.x) or by returning [null]
    (earlier API), and reports checkmate when told to. *)

Module Toy.

Record t := {
  cells : Board;
  side : Color;
  past : list (Board * Color);
  mate : bool;
  null_on_illegal : bool
}.

Definition swap (c : Color) : Color :=
  match c with WHITE => BLACK | BLACK => WHITE end.

Definition letter (c : Color) : string :=
  match c with WHITE => "w" | BLACK => "b" end.

Fixpoint update {A : Type} (l : list A) (n : nat) (f : A -> A) : list A :=
  match l, n with
  | [], _ => []
  | a :: l', O => f a :: l'
  | a :: l', S n' => a :: update l' n' f
  end.

Definition put (b : Board) (s : Square) (v : option Piece) : Board :=
  match Label.parse s with
  | Some (f, k) =>
      update b (Z.to_nat (8 - k)) (fun row => update row (Z.to_nat f) (fun _ => v))
  | None => b
  end.

Definition position (e : t) : string := "toy " ++ letter (side e).

Definition legal (e : t) (r : MoveRequest) : bool :=
  match piece_at (cells e) (req_from r) with
  | Some p =>
      Color_eqb (pcolor p) (side e) &&
      Label.is_square (req_to r) &&
      negb (String.eqb (req_from r) (req_to r)) &&
      match piece_at (cells e) (req_to r) with
      | Some q => negb (Color_eqb (pcolor q) (side e))
      | None => true
      end
  | None => false
  end.

Definition apply_move (e : t) (r : MoveRequest) : t * result (option Move) :=
  match piece_at (cells e) (req_from r) with
  | Some p =>
      if legal e r then
        let placed :=
          match req_promotion r with
          | Some k => {| ptype := k; pcolor := pcolor p |}
          | None => p
          end in
        let e' :=
          {| cells := put (put (cells e) (req_from r) None) (req_to r) (Some placed);
             side := swap (side e);
             past := (cells e, side e) :: past e;
             mate := mate e;
             null_on_illegal := null_on_illegal e |} in
        (e', Ok (Some {| m_from := req_from r; m_to := req_to r;
                         m_promotion := req_promotion r; m_flags := "n";
                         m_piece := ptype p; m_san := req_to r;
                         m_lan := req_from r ++ req_to r;
                         m_before := position e; m_after := position e' |}))
      else if null_on_illegal e then (e, Ok None)
      else (e, Throw "Invalid move")
  | None =>
      if null_on_illegal e then (e, Ok None) else (e, Throw "Invalid move")
  end.

Definition take_back (e : t) : t * result unit :=
  match past e with
  | (b, c) :: rest =>
      ({| cells := b; side := c; past := rest; mate := mate e;
          null_on_illegal := null_on_illegal e |}, Ok tt)
  | [] => (e, Ok tt)
  end.

Definition empty_row : list (option Piece) := repeat None 8.
Definition empty_cells : Board := repeat empty_row 8.

Definition clear (e : t) : t * result unit :=
  ({| cells := empty_cells; side := WHITE; past := []; mate := mate e;
      null_on_illegal := null_on_illegal e |}, Ok tt).

Definition snapshot (e : t) : ChessboardState :=
  {| isCheck := mate e; isCheckmate := mate e; isDraw := false;
     isStalemate := false; isThreefoldRepetition := false;
     isInsufficientMaterial := false; isGameOver := mate e;
     fen := position e |}.

#[global] Instance engine : ChessEngine t := {
  chess_turn e := Ok (side e);
  chess_board e := Ok (cells e);
  chess_get e s := Ok (piece_at (cells e) s);
  chess_fen e := Ok (position e);
  chess_isCheckmate e := Ok (mate e);
  chess_moves e s := Ok (Some []);
  getChessboardState e := Ok (snapshot e);
  chess_move := apply_move;
  chess_undo := take_back;
  chess_reset := clear;
  chess_load e f sk := if sk then clear e else (e, Throw "Invalid FEN")
}.

(** An engine all of whose calls throw. *)
Definition broken : ChessEngine unit := {|
  chess_turn := fun _ => Throw "turn";
  chess_board := fun _ => Throw "board";
  chess_get := fun _ _ => Throw "get";
  chess_fen := fun _ => Throw "fen";
  chess_isCheckmate := fun _ => Throw "isCheckmate";
  chess_moves := fun _ _ => Throw "moves";
  getChessboardState := fun _ => Throw "getChessboardState";
  chess_move := fun e _ => (e, Throw "move");
  chess_undo := fun e => (e, Throw "undo");
  chess_reset := fun e => (e, Throw "reset");
  chess_load := fun e _ _ => (e, Throw "load")
|}.

Definition on_board (l : list (Square * Piece)) : Board :=
  fold_left (fun b sp => put b (fst sp) (Some (snd sp))) l empty_cells.

Definition wP := {| ptype := PAWN; pcolor := WHITE |}.
Definition wR := {| ptype := ROOK; pcolor := WHITE |}.
Definition wQ := {| ptype := QUEEN; pcolor := WHITE |}.
Definition wK := {| ptype := KING; pcolor := WHITE |}.
Definition bP := {| ptype := PAWN; pcolor := BLACK |}.
Definition bK := {| ptype := KING; pcolor := BLACK |}.

(** White: Kg1, Qd1, Ra8, pawns a7 and e2.  Black: Ke8, pawn e7. *)
Definition sample_cells : Board :=
  on_board [("g1", wK); ("d1", wQ); ("a8", wR); ("a7", wP); ("e2", wP);
            ("e8", bK); ("e7", bP)].

(** The same without the black king, as in a position loaded with
    [skipValidation]. *)
Definition kingless_cells : Board :=
  on_board [("g1", wK); ("d1", wQ); ("a8", wR); ("a7", wP); ("e2", wP);
            ("e7", bP)].

(** White pawn on b7 with b8 free. *)
Definition promotion_cells : Board :=
  on_board [("g1", wK); ("b7", wP); ("e8", bK)].

Definition start (b : Board) (m nul : bool) : t :=
  {| cells := b; side := WHITE; past := []; mate := m; null_on_illegal := nul |}.

Definition props_with (sk : bool) : ChessboardProps :=
  {| pieceSize := 46.875%float; skipValidation := sk;
     checkmateHighlight := "red";
     onChessboardMoveCallback := Some (fun _ => Ok tt) |}.

(** The world of a freshly mounted board. *)
Definition mount {St : Type} (e : St) (c : Color) (b : Board) : World St :=
  {| chess := e; turn_value := c; board_state := b;
     selectableSquares := []; selectedSquare := None;
     dialog := closed_dialog;
     log := [] |}.

Definition mounted (e : t) : World t := mount e (side e) (cells e).

End Toy.

(** ** Further operations of the contexts *)

Section More_operations.

Context {St : Type} {engine : ChessEngine St}.

(** [reset] of [BoardOperationsRef]: clears the selectable squares, resets
    the highlights and re-reads the turn from the engine (unguarded). *)
Definition reset : M (St := St) unit :=
  set_selectableSquares [] ;;
  emit ResetAllHighlights ;;
  t <- query chess_turn ;;
  set_turn t.

(** The [board] the board-refs provider captures when it renders:
    [chess.board()], or an empty 8 x 8 array when that call throws. *)
Definition render_board (e : St) : Board :=
  match chess_board e with
  | Ok b => b
  | Throw _ => repeat (repeat None 8) 8
  end.

(** The keys of the object built by [generateBoardRefs], in the order the
    two loops insert them: [`${col}${row}`] for [x < board.length] and
    [y < row.length]. *)
Definition generateBoardRefs (board : Board) : list Square := visited 0 board.

End More_operations.

(** The sample engine with a [turn()] that throws. *)
Definition turnless : ChessEngine Toy.t := {|
  chess_turn := fun _ => Throw "turn";
  chess_board := fun e => Ok (Toy.cells e);
  chess_get := fun e s => Ok (piece_at (Toy.cells e) s);
  chess_fen := fun e => Ok (Toy.position e);
  chess_isCheckmate := fun e => Ok (Toy.mate e);
  chess_moves := fun _ _ => Ok (Some []);
  getChessboardState := fun e => Ok (Toy.snapshot e);
  chess_move := Toy.apply_move;
  chess_undo := Toy.take_back;
  chess_reset := Toy.clear;
  chess_load := fun e _ sk => if sk then Toy.clear e else (e, Throw "Invalid FEN")
|}.

(** Props with [pieceSize = 360 / 7 = 51.42857142857143]. *)
Definition odd_props (sk : bool) : ChessboardProps :=
  {| pieceSize := (360 / 7)%float; skipValidation := sk;
     checkmateHighlight := "red";
     onChessboardMoveCallback := Some (fun _ => Ok tt) |}.

(** White: Kg1 and a pawn on d7, with d8 and c7 free.  Black: Kh8. *)
Definition d7_cells : Board :=
  Toy.on_board [("g1", Toy.wK); ("d7", Toy.wP); ("h8", Toy.bK)].

(** White: Kg1 and a pawn on c7, with d7 empty.  Black: Kh8. *)
Definition c7_cells : Board :=
  Toy.on_board [("g1", Toy.wK); ("c7", Toy.wP); ("h8", Toy.bK)].

(** The events of an optional request. *)
Definition opt_event {A : Type} (f : A -> Event) (o : option A) : list Event :=
  match o with
  | Some a => [f a]
  | None => []
  end.

(** A string is a suffix of another. *)
Definition suffix_of (t s : string) : Prop := exists pre, s = pre ++ t.

(** ** Facts on labels and pixels *)

Lemma Qfloor_cell (k : Z) (p : Q) : ~ p == 0 -> Qfloor (inject_Z k * p / p) = k.
Proof.
  intros Hp.
  rewrite (Qfloor_comp (inject_Z k * p / p) (inject_Z k)).
  - apply Qfloor_Z.
  - apply Qdiv_mult_l; exact Hp.
Qed.

Lemma Qpos_nonzero (p : Q) : (0 < p)%Q -> ~ p == 0.
Proof. intros Hp He. rewrite He in Hp. discriminate Hp. Qed.

Lemma in_range_cases (n : Z) :
  0 <= n < 8 -> n = 0 \/ n = 1 \/ n = 2 \/ n = 3 \/ n = 4 \/ n = 5 \/ n = 6 \/ n = 7.
Proof. lia. Qed.

Ltac range_cases H :=
  apply in_range_cases in H;
  repeat (destruct H as [H | H]; [subst | ]); [ .. | subst].

Lemma parse_bounds s f k : Label.parse s = Some (f, k) -> 0 <= f < 8 /\ 1 <= k <= 8.
Proof.
  unfold Label.parse.
  destruct s as [|c [|r [|? ?]]]; try discriminate.
  destruct (_ && _) eqn:E; [|discriminate].
  intros H; injection H as <- <-.
  rewrite !andb_true_iff in E. lia.
Qed.

(** A well-formed label is rebuilt from its file and rank. *)
Lemma parse_of_indices s f k :
  Label.parse s = Some (f, k) -> Label.of_indices f (8 - k) = s.
Proof.
  intros H. pose proof (parse_bounds _ H) as [Hf Hk].
  unfold Label.parse in H.
  destruct s as [|c [|r [|? ?]]]; try discriminate.
  destruct (_ && _); [|discriminate].
  injection H as Ef Ek.
  assert (Hc : c = ascii_of_nat (Z.to_nat (97 + f))).
  { rewrite <- Ef. replace (97 + (Z.of_nat (nat_of_ascii c) - 97)) with (Z.of_nat (nat_of_ascii c)) by lia.
    rewrite Nat2Z.id, ascii_nat_embedding. reflexivity. }
  assert (Hr : r = ascii_of_nat (Z.to_nat (48 + k))).
  { rewrite <- Ek. replace (48 + (Z.of_nat (nat_of_ascii r) - 48)) with (Z.of_nat (nat_of_ascii r)) by lia.
    rewrite Nat2Z.id, ascii_nat_embedding. reflexivity. }
  subst c r. clear Ef Ek.
  replace (8 - (8 - k)) with k by lia.
  assert (Hk' : 0 <= k - 1 < 8) by lia.
  remember (k - 1) as j eqn:Ej. assert (k = j + 1) by lia. subst k. clear Ej Hk.
  range_cases Hf; range_cases Hk'; reflexivity.
Qed.

Lemma of_indices_parse x y :
  0 <= x < 8 -> 0 <= y < 8 -> Label.parse (Label.of_indices x y) = Some (x, 8 - y).
Proof. intros Hx Hy. range_cases Hx; range_cases Hy; reflexivity. Qed.

(** C9. For each of the 64 squares, and for either orientation of the board,
    mapping the square to its pixel and the pixel back to a square yields
    the same square. *)
Theorem squareOf_pixelOf (pieceSize : Q) (flipped : bool) (s : Square) :
  (0 < pieceSize)%Q ->
  Label.is_square s = true ->
  exists v, CoordinateMapper.pixelOf pieceSize flipped s = Ok v /\
            CoordinateMapper.squareOf pieceSize flipped v = Some s.
Proof.
  intros Hp Hs. apply Qpos_nonzero in Hp.
  unfold Label.is_square in Hs.
  destruct (Label.parse s) as [[f k]|] eqn:E; [clear Hs|discriminate].
  pose proof (parse_bounds _ E) as [Hf Hk].
  unfold CoordinateMapper.pixelOf. rewrite E.
  eexists; split; [reflexivity|].
  unfold CoordinateMapper.squareOf; cbn [vx vy].
  rewrite !Qfloor_cell by exact Hp.
  destruct flipped.
  - replace ((0 <=? 7 - f) && (7 - f <? 8) && (0 <=? k - 1) && (k - 1 <? 8)) with true
      by (symmetry; rewrite !andb_true_iff; lia).
    replace (7 - (7 - f)) with f by lia.
    replace (7 - (k - 1)) with (8 - k) by lia.
    f_equal. apply parse_of_indices; exact E.
  - replace ((0 <=? f) && (f <? 8) && (0 <=? 8 - k) && (8 - k <? 8)) with true
      by (symmetry; rewrite !andb_true_iff; lia).
    f_equal. apply parse_of_indices; exact E.
Qed.

Lemma squareOf_pixelOf_witness :
  exists v, CoordinateMapper.pixelOf (375 # 8) true "e4" = Ok v /\
            CoordinateMapper.squareOf (375 # 8) true v = Some "e4".
Proof. apply squareOf_pixelOf; reflexivity. Defined.

(** ** The monad and the handlers *)

Section Handlers.

Context {St : Type} {engine : ChessEngine St}.
Variable props : ChessboardProps.

(** A block guarded by [catch (error) { if (!skipValidation) throw error; }]
    returns normally when [skipValidation] is set. *)
Lemma guarded_never_throws (m : M (St := St) unit) (w : World St) :
  skipValidation props = true ->
  snd (try_catch m (unless_skip props tt) w) = Ok tt.
Proof.
  intros Hs. unfold try_catch, unless_skip. rewrite Hs.
  destruct (m w) as [w' [[]|e]]; reflexivity.
Qed.

End Handlers.

(** ** Promotion detection *)

Lemma includes_back_rank (s : Square) (f k : Z) :
  Label.parse s = Some (f, k) ->
  Label.includes "8" s = (k =? 8) /\ Label.includes "1" s = (k =? 1).
Proof.
  intros H. pose proof (parse_bounds _ H) as [Hf Hk].
  rewrite <- (parse_of_indices _ H).
  assert (Hk' : 0 <= k - 1 < 8) by lia.
  remember (k - 1) as j eqn:Ej. assert (k = j + 1) by lia. subst k. clear Ej Hk H.
  range_cases Hf; range_cases Hk'; split; reflexivity.
Qed.

Lemma js_index_nth {A : Type} (l : list A) (i : Z) :
  0 <= i -> js_index l i = nth_error l (Z.to_nat i).
Proof.
  intros Hi. unfold js_index.
  replace (i <? 0) with false by (symmetry; apply Z.ltb_ge; exact Hi).
  reflexivity.
Qed.

(** The cell the code indexes is the piece standing on the square. *)
Lemma cell_standing_on (b : Board) (s : Square) (f k : Z) :
  Label.parse s = Some (f, k) -> cell b (8 - k) f = standing_on b s.
Proof.
  intros H. pose proof (parse_bounds _ H) as [Hf Hk].
  unfold cell, standing_on. rewrite H.
  rewrite js_index_nth by lia.
  destruct (nth_error b (Z.to_nat (8 - k))) as [row|]; [|reflexivity].
  rewrite js_index_nth by lia.
  destruct (nth_error row (Z.to_nat f)) as [[piece|]|]; reflexivity.
Qed.

Section Promotion_detection.

Context {St : Type} {engine : ChessEngine St}.
Variable props : ChessboardProps.

Lemma isPromoting_frame (from to : Square) (w : World St) :
  fst (isPromoting props from to w) = w.
Proof.
  unfold isPromoting, try_catch, bind, lift, query, ret, throw.
  destruct (negb (Label.includes "8" to) && negb (Label.includes "1" to));
    [reflexivity|].
  destruct (toTranslation props from); cbn.
  - destruct (chess_board (chess w)); cbn; [reflexivity|].
    destruct (skipValidation props); reflexivity.
  - destruct (skipValidation props); reflexivity.
Qed.

(** The answer of [isPromoting] depends on the engine only. *)
Lemma isPromoting_engine_only (from to : Square) (w1 w2 : World St) :
  chess w1 = chess w2 ->
  snd (isPromoting props from to w1) = snd (isPromoting props from to w2).
Proof.
  intros He.
  unfold isPromoting, try_catch, bind, lift, query, ret, throw.
  destruct (negb (Label.includes "8" to) && negb (Label.includes "1" to));
    [reflexivity|].
  rewrite He.
  destruct (toTranslation props from); cbn.
  - destruct (chess_board (chess w2)); cbn; [reflexivity|].
    destruct (skipValidation props); reflexivity.
  - destruct (skipValidation props); reflexivity.
Qed.

Lemma isPromoting_permissive_total (from to : Square) (w : World St) :
  skipValidation props = true ->
  exists r, snd (isPromoting props from to w) = Ok r.
Proof.
  intros Hs.
  unfold isPromoting, try_catch, bind, lift, query, ret, throw. rewrite Hs.
  destruct (negb (Label.includes "8" to) && negb (Label.includes "1" to));
    [eexists; reflexivity|].
  destruct (toTranslation props from); cbn; [|eexists; reflexivity].
  destruct (chess_board (chess w)); cbn; eexists; reflexivity.
Qed.

(** When [Math.floor(val.x / pieceSize)] and [Math.floor(val.y / pieceSize)]
    give back the column and the row of [from] (the double division undoes
    the double multiplication, as it does for [pieceSize = 46.875]),
    [isPromoting from to] returns [true] exactly when the piece standing on
    [from] is a pawn and [to] lies on the back rank of that pawn's colour
    (rank 8 for white, rank 1 for black).  With [skipValidation] set, a
    failure of the lookup (of the pixel of [from] or of the engine's
    board) makes it return [false] instead of throwing. *)
Theorem isPromoting_exact_division (from to : Square) (w : World St) :
  (forall (b : Board) (f k : Z),
      Label.parse from = Some (f, k) ->
      Label.is_square to = true ->
      chess_board (chess w) = Ok b ->
      Math_floor (float_of_index f * pieceSize props / pieceSize props) = Some f ->
      Math_floor (float_of_index (8 - k) * pieceSize props / pieceSize props)
        = Some (8 - k) ->
      exists r : bool,
        isPromoting props from to w = (w, Ok r) /\
        (r = true <->
         exists piece,
           standing_on b from = Some piece /\ ptype piece = PAWN /\
           ((pcolor piece = WHITE /\ rank to = Some 8) \/
            (pcolor piece = BLACK /\ rank to = Some 1)))) /\
  (skipValidation props = true ->
   (exists e, toTranslation props from = Throw e \/
              chess_board (chess w) = Throw e) ->
   isPromoting props from to w = (w, Ok false)).
Proof.
  split.
  - intros b f k Ef Hto Hb Hx Hy.
    unfold Label.is_square in Hto.
    destruct (Label.parse to) as [[f' k']|] eqn:Et; [clear Hto|discriminate].
    destruct (includes_back_rank _ Et) as [H8 H1].
    pose proof (parse_bounds _ Et) as [_ Hk'].
    unfold isPromoting, rank. rewrite H8, H1, Et.
    destruct (negb (k' =? 8) && negb (k' =? 1)) eqn:Eguard.
    + exists false. split; [reflexivity|]. split; [discriminate|].
      intros (piece & _ & _ & [[_ Hr]|[_ Hr]]); injection Hr as ->; discriminate.
    + unfold try_catch, bind, lift, query, ret, toTranslation.
      rewrite Ef. cbn [fx fy]. rewrite Hx, Hy, Hb. cbn [cell_at].
      rewrite (cell_standing_on b _ Ef).
      eexists; split; [reflexivity|].
      destruct (standing_on b from) as [piece|].
      * destruct piece as [ty c]; cbn [ptype pcolor].
        split.
        -- intros H. exists {| ptype := ty; pcolor := c |}. cbn [ptype pcolor].
           split; [reflexivity|].
           destruct ty; try discriminate. split; [reflexivity|].
           destruct c; cbn in H; rewrite ?andb_true_r, ?andb_false_r, ?orb_false_r in H;
             cbn in H; [left|right]; split; try reflexivity; f_equal; lia.
        -- intros (piece & Hpc & Hty & Hc). injection Hpc as <-.
           cbn [ptype pcolor] in Hty, Hc. subst ty.
           destruct Hc as [[-> Hr]|[-> Hr]]; injection Hr as ->; reflexivity.
      * split; [discriminate|]. intros (piece & Hpc & _); discriminate.
  - intros Hs [e He]. unfold isPromoting.
    destruct (negb (Label.includes "8" to) && negb (Label.includes "1" to));
      [reflexivity|].
    unfold try_catch, bind, lift, query, ret. rewrite Hs.
    destruct (toTranslation props from) as [v|e'] eqn:Ev; [|reflexivity].
    destruct He as [He|He]; [discriminate|]. rewrite He. reflexivity.
Qed.

End Promotion_detection.

Lemma isPromoting_exact_division_witness :
  (exists r : bool,
      isPromoting (Toy.props_with false) "a7" "a8"
        (Toy.mounted (Toy.start Toy.sample_cells false false))
      = (Toy.mounted (Toy.start Toy.sample_cells false false), Ok r) /\
      (r = true <->
       exists piece,
         standing_on Toy.sample_cells "a7" = Some piece /\ ptype piece = PAWN /\
         ((pcolor piece = WHITE /\ rank "a8" = Some 8) \/
          (pcolor piece = BLACK /\ rank "a8" = Some 1)))) /\
  isPromoting (engine := Toy.broken) (Toy.props_with true) "a7" "a8"
    (Toy.mount tt WHITE Toy.empty_cells)
  = (Toy.mount tt WHITE Toy.empty_cells, Ok false).
Proof.
  split.
  - apply (proj1 (isPromoting_exact_division (Toy.props_with false) "a7" "a8"
                    (Toy.mounted (Toy.start Toy.sample_cells false false)))
             Toy.sample_cells 0 7);
      reflexivity.
  - apply (isPromoting_exact_division (engine := Toy.broken) (Toy.props_with true)
             "a7" "a8" (Toy.mount tt WHITE Toy.empty_cells)).
    + reflexivity.
    + exists "board". right. reflexivity.
Defined.

(** C6. The double arithmetic of [isPromoting] breaks the equivalence.  At
    [pieceSize = 360 / 7 = 51.42857142857143] a white pawn stands on d7 and
    d8 is on rank 8, yet [isPromoting "d7" "d8"] answers [false]: the pixel
    [3 * pieceSize] divided by [pieceSize] is 2.9999999999999996, its floor
    is column 2, and the code looks at the empty square c7.  With the pawn
    on c7 and d7 empty it answers [true].  At [pieceSize = 46.875] the same
    calls give the expected answers. *)
Theorem isPromoting_misreads_column :
  let P := odd_props false in
  let w := Toy.mounted (Toy.start d7_cells false false) in
  let w' := Toy.mounted (Toy.start c7_cells false false) in
  standing_on d7_cells "d7" = Some Toy.wP /\
  standing_on d7_cells "c7" = None /\
  standing_on c7_cells "d7" = None /\
  rank "d8" = Some 8 /\
  Math_floor (float_of_index 3 * pieceSize P / pieceSize P) = Some 2 /\
  isPromoting P "d7" "d8" w = (w, Ok false) /\
  isPromoting P "d7" "d8" w' = (w', Ok true) /\
  isPromoting (Toy.props_with false) "d7" "d8" w = (w, Ok true) /\
  isPromoting (Toy.props_with false) "d7" "d8" w' = (w', Ok false).
Proof. repeat split. Qed.

(** ** Permissive mode never surfaces a failure *)

Section Permissive_safety.

Context {St : Type} {engine : ChessEngine St}.
Variable props : ChessboardProps.

(** With [skipValidation] set, [moveProgrammatically] and [undo] return
    normally from every world, whatever the engine does and whatever state
    an earlier fallback left it in; so do [resetBoard] and [getState]. *)
Theorem permissive_never_throws (w : World St) (from to : Square)
    (promotionPiece : option PieceSymbol) (fen : option string) :
  skipValidation props = true ->
  snd (moveProgrammatically props from to promotionPiece w) = Ok tt /\
  snd (undo props w) = Ok tt /\
  snd (resetBoard props fen w) = Ok tt /\
  exists s, snd (getState props w) = Ok s.
Proof.
  intros Hs. repeat split.
  - apply guarded_never_throws; exact Hs.
  - apply guarded_never_throws; exact Hs.
  - apply guarded_never_throws; exact Hs.
  - unfold getState, try_catch, query. rewrite Hs.
    destruct (getChessboardState (chess w)) as [s|e]; eexists; reflexivity.
Qed.

End Permissive_safety.

Lemma permissive_never_throws_witness :
  snd (moveProgrammatically (engine := Toy.broken) (Toy.props_with true)
         "e2" "e4" None (Toy.mount tt WHITE Toy.empty_cells)) = Ok tt /\
  snd (undo (engine := Toy.broken) (Toy.props_with true)
         (Toy.mount tt WHITE Toy.empty_cells)) = Ok tt /\
  snd (resetBoard (engine := Toy.broken) (Toy.props_with true) (Some "8/8/8/8/8/8/8/8 w - - 0 1")
         (Toy.mount tt WHITE Toy.empty_cells)) = Ok tt /\
  exists s, snd (getState (engine := Toy.broken) (Toy.props_with true)
                   (Toy.mount tt WHITE Toy.empty_cells)) = Ok s.
Proof.
  apply (permissive_never_throws (engine := Toy.broken) (Toy.props_with true)).
  reflexivity.
Defined.


(** ** Selecting a piece *)

Section Selection.

Context {St : Type} {engine : ChessEngine St}.
Variable props : ChessboardProps.

(** C10. With [skipValidation] set, [onSelectPiece] leaves the list of
    selectable squares empty for every square and every engine state, and
    does so without calling the engine at all (in particular without
    asking it for legal moves): the log and the engine are untouched. *)
Theorem onSelectPiece_permissive (square : Square) (w : World St) :
  skipValidation props = true ->
  snd (onSelectPiece props square w) = Ok tt /\
  selectableSquares (fst (onSelectPiece props square w)) = [] /\
  selectedSquare (fst (onSelectPiece props square w)) = Some square /\
  log (fst (onSelectPiece props square w)) = log w /\
  engine_moves_queries (log (fst (onSelectPiece props square w)))
    = engine_moves_queries (log w) /\
  chess (fst (onSelectPiece props square w)) = chess w.
Proof.
  intros Hs. unfold onSelectPiece. rewrite Hs. cbn. repeat split; reflexivity.
Qed.

(** Without [skipValidation] the engine is asked once for the legal moves
    from the selected square. *)
Lemma onSelectPiece_strict_queries (square : Square) (w : World St) :
  skipValidation props = false ->
  engine_moves_queries (log (fst (onSelectPiece props square w)))
    = (engine_moves_queries (log w) ++ [square])%list.
Proof.
  intros Hs. unfold onSelectPiece. rewrite Hs.
  unfold bind, try_catch, mutate, set_selectedSquare, set_selectableSquares, ret.
  cbn.
  destruct (chess_moves (chess w) square) as [[l|]|e]; cbn;
    unfold engine_moves_queries; rewrite flat_map_app; reflexivity.
Qed.

End Selection.

Lemma onSelectPiece_permissive_witness :
  let w := Toy.mounted (Toy.start Toy.sample_cells false false) in
  snd (onSelectPiece (Toy.props_with true) "e2" w) = Ok tt /\
  selectableSquares (fst (onSelectPiece (Toy.props_with true) "e2" w)) = [] /\
  selectedSquare (fst (onSelectPiece (Toy.props_with true) "e2" w)) = Some "e2" /\
  log (fst (onSelectPiece (Toy.props_with true) "e2" w)) = log w /\
  engine_moves_queries (log (fst (onSelectPiece (Toy.props_with true) "e2" w)))
    = engine_moves_queries (log w) /\
  chess (fst (onSelectPiece (Toy.props_with true) "e2" w)) = chess w.
Proof.
  intro w. apply (onSelectPiece_permissive (Toy.props_with true) "e2" w).
  reflexivity.
Defined.

(** ** The move pipeline *)

(** Unfolding the monad. *)
Ltac run :=
  unfold moveProgrammatically, run_callback, findKing, undo, onSelect,
    run_onSelect, showPromotionDialog, onMove, try_catch, bind, unless_skip,
    lift, query, mutate, emit, set_turn, setBoard, setDialog, get_dialog,
    set_selectableSquares, set_selectedSquare, ret, throw in *.

(** Case analysis on the next call the pipeline examines: the innermost
    scrutinee first. *)
Ltac step :=
  match goal with
  | |- context [match ?x with _ => _ end] =>
      lazymatch x with
      | context [match _ with _ => _ end] => fail
      | _ => let E := fresh "E" in destruct x eqn:E; cbn in *
      end
  end.

Lemma engine_moves_app (l l' : list Event) :
  engine_moves (l ++ l') = (engine_moves l ++ engine_moves l')%list.
Proof. apply flat_map_app. Qed.

Lemma callbacks_app (l l' : list Event) :
  callbacks (l ++ l') = (callbacks l ++ callbacks l')%list.
Proof. apply flat_map_app. Qed.

Lemma highlights_app (l l' : list Event) :
  highlights (l ++ l') = (highlights l ++ highlights l')%list.
Proof. apply flat_map_app. Qed.

Lemma published_app (l l' : list Event) :
  published (l ++ l') = (published l ++ published l')%list.
Proof. apply flat_map_app. Qed.

Lemma resumed_app (l l' : list Event) :
  resumed (l ++ l') = (resumed l ++ resumed l')%list.
Proof. apply flat_map_app. Qed.

Section Strict_rejection.

Context {St : Type} {engine : ChessEngine St}.
Variable props : ChessboardProps.

(** C2. Without [skipValidation], when the engine rejects the requested
    move ([chess.move] throws), the pipeline stops there with no state
    change: the error is propagated, the board store, the turn indicator,
    the selection and the promotion slot are what they were, the log gains
    the [chess.move] call and nothing else, so that no board is published
    and no callback fires. *)
Theorem strict_rejection_stops (from to : Square)
    (promotionPiece : option PieceSymbol) (w : World St) (e' : St)
    (err : string) :
  skipValidation props = false ->
  chess_move (chess w)
    {| req_from := from; req_to := to; req_promotion := promotionPiece |}
    = (e', Throw err) ->
  moveProgrammatically props from to promotionPiece w =
    ({| chess := e'; turn_value := turn_value w; board_state := board_state w;
        selectableSquares := selectableSquares w;
        selectedSquare := selectedSquare w; dialog := dialog w;
        log := log w ++ [EngineMove {| req_from := from; req_to := to;
                                       req_promotion := promotionPiece |}] |},
     Throw err) /\
  callbacks (log (fst (moveProgrammatically props from to promotionPiece w)))
    = callbacks (log w) /\
  published (log (fst (moveProgrammatically props from to promotionPiece w)))
    = published (log w) /\
  turn_value (fst (moveProgrammatically props from to promotionPiece w))
    = turn_value w /\
  board_state (fst (moveProgrammatically props from to promotionPiece w))
    = board_state w.
Proof.
  intros Hs Hm. run. rewrite Hs. cbn. rewrite Hm. cbn.
  rewrite callbacks_app, published_app. cbn. rewrite !app_nil_r.
  repeat split.
Qed.

End Strict_rejection.

Section Pipeline_frame.

Context {St : Type} {engine : ChessEngine St}.
Variable props : ChessboardProps.

(** Whatever happens, [moveProgrammatically] calls [chess.move] exactly
    once, first, with the requested squares and promotion piece; it never
    touches the promotion slot and never runs a stored continuation. *)
Lemma moveProgrammatically_frame (from to : Square)
    (promotionPiece : option PieceSymbol) (w : World St) :
  exists evs,
    log (fst (moveProgrammatically props from to promotionPiece w)) =
      (log w ++ EngineMove {| req_from := from; req_to := to;
                              req_promotion := promotionPiece |} :: evs)%list /\
    engine_moves evs = [] /\
    resumed evs = [] /\
    dialog (fst (moveProgrammatically props from to promotionPiece w)) = dialog w.
Proof.
  run. repeat step;
    rewrite <- ?app_assoc; cbn [app];
    eexists; (split; [reflexivity|]); repeat split; reflexivity.
Qed.

Lemma moveProgrammatically_safe (from to : Square)
    (promotionPiece : option PieceSymbol) (w : World St) :
  skipValidation props = true ->
  snd (moveProgrammatically props from to promotionPiece w) = Ok tt.
Proof. intros Hs. apply guarded_never_throws; exact Hs. Qed.

End Pipeline_frame.


(** ** Locating the king *)

Section King_lookup.

Context {St : Type} {engine : ChessEngine St}.

Variables (e : St) (c : Color) (k : Square).

Lemma scan_row_miss (x : Z) (ys : list Z) (rest : result (option Square)) :
  king_only_on e c k (map (Label.of_indices x) ys) ->
  ~ In k (map (Label.of_indices x) ys) ->
  scan_row e c x ys rest = rest.
Proof.
  induction ys as [|y ys IH]; intros Hall Hnot; [reflexivity|].
  cbn [scan_row map] in *.
  destruct (Hall (Label.of_indices x y) (or_introl eq_refl)) as (p & Hp & Hk).
  rewrite Hp.
  destruct (is_king_of c p) eqn:Eking.
  - exfalso. apply Hnot. left. apply Hk. reflexivity.
  - apply IH.
    + intros s Hs. apply Hall. right. exact Hs.
    + intros Hin. apply Hnot. right. exact Hin.
Qed.

Lemma scan_row_hit (x : Z) (ys : list Z) (rest : result (option Square)) :
  king_only_on e c k (map (Label.of_indices x) ys) ->
  In k (map (Label.of_indices x) ys) ->
  scan_row e c x ys rest = Ok (Some k).
Proof.
  induction ys as [|y ys IH]; intros Hall Hin; [destruct Hin|].
  cbn [scan_row map] in *.
  destruct (Hall (Label.of_indices x y) (or_introl eq_refl)) as (p & Hp & Hk).
  rewrite Hp.
  destruct (is_king_of c p) eqn:Eking.
  - f_equal. f_equal. apply Hk. reflexivity.
  - apply IH.
    + intros s Hs. apply Hall. right. exact Hs.
    + destruct Hin as [Heq|Hin]; [|exact Hin].
      apply Hk in Heq. congruence.
Qed.

(** The linear scan returns the square of the king. *)
Lemma scan_rows_finds (rows : list (list (option Piece))) :
  forall x,
    king_only_on e c k (visited x rows) ->
    In k (visited x rows) ->
    scan_rows e c x rows = Ok (Some k).
Proof.
  induction rows as [|row rows IH]; intros x Hall Hin; [destruct Hin|].
  cbn [scan_rows visited] in *.
  destruct (in_dec string_dec k (map (Label.of_indices x) (Label.range (length row))))
    as [Hhere|Hlater].
  - apply scan_row_hit; [|exact Hhere].
    intros s Hs. apply Hall. apply in_or_app. left. exact Hs.
  - rewrite scan_row_miss; [|intros s Hs; apply Hall; apply in_or_app; left; exact Hs
                            |exact Hlater].
    apply IH.
    + intros s Hs. apply Hall. apply in_or_app. right. exact Hs.
    + apply in_app_or in Hin. destruct Hin as [Hin|Hin]; [contradiction|exact Hin].
Qed.

End King_lookup.

(** On an 8 x 8 matrix the scan visits the 64 squares. *)
Lemma visited_8x8 (b : Board) :
  length b = 8%nat ->
  Forall (fun row => length row = 8%nat) b ->
  visited 0 b = Label.all_squares.
Proof.
  intros Hlen Hrows.
  do 9 (destruct b as [|? b]; try discriminate Hlen).
  repeat match goal with
         | H : Forall _ (_ :: _) |- _ => inversion H as [|? ? ?Hrow ?Hrest]; subst; clear H
         end.
  cbn [visited].
  repeat match goal with H : length _ = 8%nat |- _ => rewrite H; clear H end.
  reflexivity.
Qed.

Section Permissive_pipeline.

Context {St : Type} {engine : ChessEngine St}.
Variable props : ChessboardProps.

(** A reported checkmate whose king is on the board: the scan finds it. *)
Lemma mated_king_found (e : St) :
  mated_king_on_board e ->
  chess_isCheckmate e = Ok true ->
  exists t k,
    chess_turn e = Ok t /\
    findKing_scan (if Color_eqb t BLACK then BLACK else WHITE) e = Ok (Some k).
Proof.
  intros Hking Hc.
  destruct (Hking Hc) as (t & b & k & Ht & Hb & Hlen & Hrows & Hin & Honly).
  exists t, k. split; [exact Ht|].
  replace (if Color_eqb t BLACK then BLACK else WHITE) with t by (destruct t; reflexivity).
  unfold findKing_scan. rewrite Hb.
  apply scan_rows_finds; rewrite (visited_8x8 Hlen Hrows); assumption.
Qed.


(** C3. With [skipValidation] set, when [chess.move] throws, the pipeline
    fabricates the mock move, carrying exactly the requested [from], [to]
    and promotion piece with SAN [from-to], and hands it to the callback
    (once, when one is installed).  It makes no further [chess.move] call
    and leaves the engine as the rejected call left it.  The board it then
    publishes, exactly once, is the board from before the move, and the
    board store holds it.  The engine is assumed to behave as chess.js
    does (the position string and the board can be read, the rejected call
    left the board alone, a reported checkmate has its king on the board),
    and the callback to return normally. *)
Theorem synthetic_move_fallback (from to : Square)
    (promotionPiece : option PieceSymbol) (w : World St) (e' : St)
    (err f : string) (b : Board) :
  skipValidation props = true ->
  chess_move (chess w)
    {| req_from := from; req_to := to; req_promotion := promotionPiece |}
    = (e', Throw err) ->
  chess_fen e' = Ok f ->
  chess_board (chess w) = Ok b ->
  chess_board e' = Ok b ->
  mated_king_on_board e' ->
  (forall cb, onChessboardMoveCallback props = Some cb -> forall p, cb p = Ok tt) ->
  let w' := fst (moveProgrammatically props from to promotionPiece w) in
  let synthetic := mock_move from to promotionPiece f f in
  snd (moveProgrammatically props from to promotionPiece w) = Ok tt /\
  chess w' = e' /\
  engine_moves (log w') =
    (engine_moves (log w) ++
     [{| req_from := from; req_to := to; req_promotion := promotionPiece |}])%list /\
  synthetic =
    {| m_from := from; m_to := to; m_promotion := promotionPiece;
       m_flags := ""; m_piece := PAWN; m_san := from ++ "-" ++ to;
       m_lan := from ++ to; m_before := f; m_after := f |} /\
  callbacks (log w') =
    (callbacks (log w) ++
     match onChessboardMoveCallback props with
     | Some _ =>
         [{| move := synthetic;
             state :=
               {| status := match getChessboardState e' with
                            | Ok st => st
                            | Throw _ => default_state
                            end;
                  in_promotion := match promotionPiece with
                                  | Some _ => true
                                  | None => false
                                  end |} |}]
     | None => []
     end)%list /\
  published (log w') = (published (log w) ++ [b])%list /\
  board_state w' = b.
Proof.
  intros Hs Hm Hf Hb0 Hb Hking Hcb w' synthetic. subst w' synthetic.
  destruct (chess_isCheckmate e') as [[|]|errc] eqn:Hc.
  - destruct (mated_king_found Hking Hc) as (t & k & Ht & Hk).
    run. rewrite Hs, Hm. cbn. rewrite Hf. cbn.
    destruct (onChessboardMoveCallback props) as [cb|] eqn:Ecb;
      repeat (first [rewrite Ht | rewrite Hc | rewrite Hk | rewrite Hb
                    | rewrite (Hcb _ eq_refl) | step]; cbn);
      rewrite ?engine_moves_app, ?callbacks_app, ?published_app; cbn;
      rewrite ?app_nil_r; repeat split.
  - run. rewrite Hs, Hm. cbn. rewrite Hf. cbn.
    destruct (onChessboardMoveCallback props) as [cb|] eqn:Ecb;
      repeat (first [rewrite Hc | rewrite Hb | rewrite (Hcb _ eq_refl) | step]; cbn);
      rewrite ?engine_moves_app, ?callbacks_app, ?published_app; cbn;
      rewrite ?app_nil_r; repeat split.
  - run. rewrite Hs, Hm. cbn. rewrite Hf. cbn.
    destruct (onChessboardMoveCallback props) as [cb|] eqn:Ecb;
      repeat (first [rewrite Hc | rewrite Hb | rewrite (Hcb _ eq_refl) | step]; cbn);
      rewrite ?engine_moves_app, ?callbacks_app, ?published_app; cbn;
      rewrite ?app_nil_r; repeat split.
Qed.

End Permissive_pipeline.

Section Checkmate.

Context {St : Type} {engine : ChessEngine St}.
Variable props : ChessboardProps.

(** C5. Without [skipValidation], a move the engine accepts and after
    which it reports checkmate issues exactly one highlight request, for
    the square of the king of the side to move, found by the scan of the
    64 squares, in the checkmate colour.  With [skipValidation], when the
    lookup of that king fails (it throws, or finds no king) no highlight
    request is issued and the call returns normally. *)
Theorem checkmate_highlight (from to : Square)
    (promotionPiece : option PieceSymbol) (w : World St) (e' : St) :
  (skipValidation props = false ->
   forall (mv : Move) (t : Color) (b : Board) (k : Square),
     chess_move (chess w)
       {| req_from := from; req_to := to; req_promotion := promotionPiece |}
       = (e', Ok (Some mv)) ->
     chess_turn e' = Ok t ->
     chess_isCheckmate e' = Ok true ->
     chess_board e' = Ok b ->
     length b = 8%nat ->
     Forall (fun row => length row = 8%nat) b ->
     In k Label.all_squares ->
     king_only_on e' t k Label.all_squares ->
     highlights (log (fst (moveProgrammatically props from to promotionPiece w)))
     = (highlights (log w) ++ [(k, Some (checkmateHighlight props))])%list) /\
  (skipValidation props = true ->
   forall (r : result (option Move)),
     chess_move (chess w)
       {| req_from := from; req_to := to; req_promotion := promotionPiece |}
       = (e', r) ->
     (forall t, chess_turn e' = Ok t ->
        findKing_scan t e' = Ok None \/ exists err, findKing_scan t e' = Throw err) ->
     highlights (log (fst (moveProgrammatically props from to promotionPiece w)))
     = highlights (log w) /\
     snd (moveProgrammatically props from to promotionPiece w) = Ok tt).
Proof.
  split.
  - intros Hs mv t b k Hm Ht Hmate Hb Hlen Hrows Hin Hking.
    assert (Hscan : findKing_scan (if Color_eqb t BLACK then BLACK else WHITE) e'
                    = Ok (Some k)).
    { replace (if Color_eqb t BLACK then BLACK else WHITE) with t by (destruct t; reflexivity).
      unfold findKing_scan. rewrite Hb.
      apply scan_rows_finds; rewrite (visited_8x8 Hlen Hrows); assumption. }
    run. rewrite Hs, Hm. cbn. rewrite Ht. cbn. rewrite Hmate. cbn.
    rewrite Ht. cbn. rewrite Hscan. cbn.
    repeat step; rewrite ?highlights_app; cbn; rewrite ?app_nil_r; reflexivity.
  - intros Hs r Hm Hlookup. split; [|apply guarded_never_throws; exact Hs].
    destruct (chess_turn e') as [t|errt] eqn:Ht.
    + destruct (Hlookup t eq_refl) as [Hn|[err Hn]]; destruct t;
        run; rewrite Hs, Hm; cbn;
        repeat (first [rewrite Ht | rewrite Hn | step]; cbn);
        rewrite ?highlights_app; cbn; rewrite ?app_nil_r; reflexivity.
    + run; rewrite Hs, Hm; cbn;
        repeat (first [rewrite Ht | step]; cbn);
        rewrite ?highlights_app; cbn; rewrite ?app_nil_r; reflexivity.
Qed.

End Checkmate.

(** ** Promotion: suspension and resumption *)

Ltac run_shell :=
  unfold onMove, onSelect, run_onSelect, showPromotionDialog, bind, emit,
    setDialog, get_dialog, set_selectableSquares, set_selectedSquare, query,
    ret in *.

Section Promotion_flow.

Context {St : Type} {engine : ChessEngine St}.
Variable props : ChessboardProps.

(** [onSelect] with a held continuation: the continuation runs once; the
    slot is cleared when it returns and kept when it throws. *)
Lemma onSelect_held (piece : PieceSymbol) (w : World St) (from to : Square) :
  dialog_onSelect (dialog w) = Some (ResumeMove from to) ->
  exists evs,
    log (fst (onSelect props piece w)) =
      (log w ++ Resume (ResumeMove from to) piece ::
         EngineMove {| req_from := from; req_to := to;
                       req_promotion := Some piece |} :: evs)%list /\
    engine_moves evs = [] /\
    resumed evs = [] /\
    (snd (onSelect props piece w) = Ok tt ->
     dialog (fst (onSelect props piece w)) = closed_dialog) /\
    (forall e, snd (onSelect props piece w) = Throw e ->
     dialog (fst (onSelect props piece w)) = dialog w) /\
    (skipValidation props = true -> snd (onSelect props piece w) = Ok tt).
Proof.
  intros Hk. run_shell. rewrite Hk. cbn.
  match goal with
  | |- context [moveProgrammatically props from to (Some piece) ?w0] =>
      pose proof (moveProgrammatically_frame props from to (Some piece) w0)
        as (evs & Hlog & Hem & Hres & Hdlg);
      pose proof (moveProgrammatically_safe props from to (Some piece) w0) as Hsafe;
      destruct (moveProgrammatically props from to (Some piece) w0)
        as [w' [[]|err]] eqn:Hmp
  end; cbn in *.
  - exists (evs ++ [Enable to true])%list.
    rewrite Hlog, <- !app_assoc. cbn [app].
    unfold engine_moves, resumed in *. rewrite !flat_map_app, Hem, Hres. cbn.
    split; [reflexivity|]. split; [reflexivity|]. split; [reflexivity|].
    split; [reflexivity|]. split; [intros; discriminate|reflexivity].
  - exists evs. rewrite Hlog, <- !app_assoc. cbn [app].
    split; [reflexivity|]. split; [exact Hem|]. split; [exact Hres|].
    split; [intros; discriminate|]. split; [intros; exact Hdlg|].
    intros Hs. specialize (Hsafe Hs). discriminate.
Qed.

(** Whenever [isPromoting] answers [true] and [chess.turn()] returns,
    [onMove] returns after storing the continuation in the promotion slot,
    having made no [chess.move] call and left the engine alone; resolving
    the dialog with piece [p] then makes exactly one [chess.move] call,
    with [promotion = p]. *)
Theorem suspension_when_promoting (from to : Square) (w : World St)
    (t : Color) (p : PieceSymbol) :
  snd (isPromoting props from to w) = Ok true ->
  chess_turn (chess w) = Ok t ->
  let w1 := fst (onMove props from to w) in
  let w2 := fst (onSelect props p w1) in
  snd (onMove props from to w) = Ok tt /\
  engine_moves (log w1) = engine_moves (log w) /\
  chess w1 = chess w /\
  dialog w1 = {| isDialogActive := true; dialog_type := Some t;
                 dialog_onSelect := Some (ResumeMove from to) |} /\
  engine_moves (log w2) =
    (engine_moves (log w1) ++
     [{| req_from := from; req_to := to; req_promotion := Some p |}])%list.
Proof.
  intros Hprom Ht w1 w2.
  assert (Hsuspend :
            snd (onMove props from to w) = Ok tt /\
            engine_moves (log w1) = engine_moves (log w) /\
            chess w1 = chess w /\
            dialog w1 = {| isDialogActive := true; dialog_type := Some t;
                           dialog_onSelect := Some (ResumeMove from to) |}).
  { subst w1. run_shell. cbn.
    match goal with
    | |- context [isPromoting props from to ?w0] =>
        pose proof (isPromoting_frame props from to w0) as Hfr;
        pose proof (isPromoting_engine_only props from to w0 w eq_refl) as Heng;
        destruct (isPromoting props from to w0) as [w0' r]
    end.
    cbn in Hfr, Heng. rewrite Hprom in Heng. subst w0' r.
    cbn. rewrite Ht. cbn.
    rewrite !engine_moves_app. cbn. rewrite !app_nil_r.
    repeat split; reflexivity. }
  destruct Hsuspend as (Hok & Hlog & Hchess & Hdlg).
  repeat split; try assumption.
  subst w2.
  destruct (@onSelect_held p w1 from to) as (evs & Hl2 & Hem & _).
  { rewrite Hdlg. reflexivity. }
  rewrite Hl2. unfold engine_moves in *. rewrite flat_map_app. cbn.
  rewrite Hem. reflexivity.
Qed.

(** C8 (amended). The promotion context has a single slot.  A new
    [showPromotionDialog] replaces its content: the world is the one a
    single request would have produced, nothing is invoked, and the
    earlier continuation is gone.  [onSelect piece] runs the continuation
    held in the slot exactly once, with [piece]; the slot is cleared when
    the continuation returns normally (always the case with
    [skipValidation]) and is left as it was when the continuation
    throws, the error being propagated. *)
Theorem promotion_slot (w : World St) :
  (forall (t1 t2 : Color) (k1 k2 : option OnSelect),
      fst (showPromotionDialog t2 k2 (fst (showPromotionDialog t1 k1 w)))
      = fst (showPromotionDialog t2 k2 w) /\
      dialog (fst (showPromotionDialog t2 k2 w))
      = {| isDialogActive := true; dialog_type := Some t2;
           dialog_onSelect := k2 |} /\
      log (fst (showPromotionDialog t2 k2 w)) = log w) /\
  (forall (k : OnSelect) (piece : PieceSymbol),
      dialog_onSelect (dialog w) = Some k ->
      resumed (log (fst (onSelect props piece w)))
      = (resumed (log w) ++ [(k, piece)])%list /\
      (snd (onSelect props piece w) = Ok tt ->
       dialog (fst (onSelect props piece w)) = closed_dialog) /\
      (forall e, snd (onSelect props piece w) = Throw e ->
       dialog (fst (onSelect props piece w)) = dialog w) /\
      (skipValidation props = true -> snd (onSelect props piece w) = Ok tt)).
Proof.
  split.
  - intros t1 t2 k1 k2. repeat split.
  - intros [from to] piece Hk.
    destruct (@onSelect_held piece w from to Hk)
      as (evs & Hlog & _ & Hres & Hclear & Hkeep & Hsafe).
    repeat split; try assumption.
    rewrite Hlog. unfold resumed in *. rewrite flat_map_app. cbn.
    rewrite Hres. reflexivity.
Qed.

End Promotion_flow.

(** ** Runs on the sample engine *)


Lemma strict_rejection_stops_witness :
  let P := Toy.props_with false in
  let w0 := Toy.mounted (Toy.start Toy.sample_cells false false) in
  let w := fst (undo P (fst (moveProgrammatically P "e2" "e4" None w0))) in
  moveProgrammatically P "a7" "a8" None w =
    ({| chess := chess w; turn_value := BLACK; board_state := board_state w;
        selectableSquares := selectableSquares w;
        selectedSquare := selectedSquare w; dialog := dialog w;
        log := log w ++ [EngineMove {| req_from := "a7"; req_to := "a8";
                                       req_promotion := None |}] |},
     Throw "Invalid move") /\
  callbacks (log (fst (moveProgrammatically P "a7" "a8" None w)))
    = callbacks (log w) /\
  published (log (fst (moveProgrammatically P "a7" "a8" None w)))
    = published (log w) /\
  turn_value (fst (moveProgrammatically P "a7" "a8" None w)) = turn_value w /\
  board_state (fst (moveProgrammatically P "a7" "a8" None w)) = board_state w.
Proof.
  intros P w0 w.
  apply (@strict_rejection_stops _ _ P "a7" "a8" None w (chess w) "Invalid move").
  - reflexivity.
  - reflexivity.
Defined.

Lemma synthetic_move_fallback_witness :
  let P := Toy.props_with true in
  let w := Toy.mounted (Toy.start Toy.sample_cells false false) in
  let w' := fst (moveProgrammatically P "a7" "a8" (Some QUEEN) w) in
  snd (moveProgrammatically P "a7" "a8" (Some QUEEN) w) = Ok tt /\
  chess w' = chess w /\
  engine_moves (log w') =
    [{| req_from := "a7"; req_to := "a8"; req_promotion := Some QUEEN |}] /\
  callbacks (log w') =
    [{| move := {| m_from := "a7"; m_to := "a8"; m_promotion := Some QUEEN;
                   m_flags := ""; m_piece := PAWN; m_san := "a7-a8";
                   m_lan := "a7a8"; m_before := "toy w"; m_after := "toy w" |};
        state := {| status := Toy.snapshot (chess w); in_promotion := true |} |}] /\
  published (log w') = [Toy.sample_cells] /\
  board_state w' = Toy.sample_cells.
Proof.
  intros P w w'.
  destruct (@synthetic_move_fallback _ _ P "a7" "a8" (Some QUEEN) w (chess w)
              "Invalid move" "toy w" Toy.sample_cells)
    as (Hok & Hchess & Hmoves & _ & Hcb & Hpub & Hboard).
  - reflexivity.
  - reflexivity.
  - reflexivity.
  - reflexivity.
  - reflexivity.
  - intros Hmate. discriminate Hmate.
  - intros cb [= <-] p. reflexivity.
  - repeat split; assumption.
Defined.

Lemma suspension_when_promoting_witness :
  let P := Toy.props_with false in
  let w := Toy.mounted (Toy.start Toy.promotion_cells false false) in
  let w1 := fst (onMove P "b7" "b8" w) in
  let w2 := fst (onSelect P QUEEN w1) in
  snd (onMove P "b7" "b8" w) = Ok tt /\
  engine_moves (log w1) = engine_moves (log w) /\
  chess w1 = chess w /\
  dialog w1 = {| isDialogActive := true; dialog_type := Some WHITE;
                 dialog_onSelect := Some (ResumeMove "b7" "b8") |} /\
  engine_moves (log w2) =
    (engine_moves (log w1) ++
     [{| req_from := "b7"; req_to := "b8"; req_promotion := Some QUEEN |}])%list.
Proof.
  intros P w.
  apply (@suspension_when_promoting _ _ P "b7" "b8" w WHITE QUEEN); reflexivity.
Defined.

(** C4. The pawn on d7 reaches the last rank by d7-d8, but at
    [pieceSize = 360 / 7] [isPromoting] answers [false] (it reads column 2,
    see [isPromoting_misreads_column]): [onMove] does not suspend, the
    dialog stays closed and [chess.move] is called at once, without a
    promotion piece.  At [pieceSize = 46.875] the same call suspends: the
    dialog holds the continuation and no [chess.move] has been made. *)
Theorem onMove_misses_promotion :
  let P := odd_props false in
  let w := Toy.mounted (Toy.start d7_cells false false) in
  standing_on d7_cells "d7" = Some Toy.wP /\
  rank "d8" = Some 8 /\
  snd (onMove P "d7" "d8" w) = Ok tt /\
  dialog (fst (onMove P "d7" "d8" w)) = closed_dialog /\
  engine_moves (log (fst (onMove P "d7" "d8" w))) =
    [{| req_from := "d7"; req_to := "d8"; req_promotion := None |}] /\
  dialog (fst (onMove (Toy.props_with false) "d7" "d8" w)) =
    {| isDialogActive := true; dialog_type := Some WHITE;
       dialog_onSelect := Some (ResumeMove "d7" "d8") |} /\
  engine_moves (log (fst (onMove (Toy.props_with false) "d7" "d8" w))) = [].
Proof. repeat split. Qed.

Lemma checkmate_highlight_witness :
  (let P := Toy.props_with false in
   let w := Toy.mounted (Toy.start Toy.sample_cells true false) in
   highlights (log (fst (moveProgrammatically P "d1" "d7" None w)))
   = (highlights (log w) ++ [("e8", Some "red")])%list) /\
  (let P := Toy.props_with true in
   let w := Toy.mounted (Toy.start Toy.kingless_cells true false) in
   highlights (log (fst (moveProgrammatically P "d1" "d7" None w)))
   = highlights (log w) /\
   snd (moveProgrammatically P "d1" "d7" None w) = Ok tt).
Proof.
  split.
  - intros P w.
    destruct (Toy.apply_move (chess w)
                {| req_from := "d1"; req_to := "d7"; req_promotion := None |})
      as [e' r] eqn:Hm.
    vm_compute in Hm. injection Hm as <- <-.
    eapply (proj1 (@checkmate_highlight _ _ P "d1" "d7" None w _)).
    + reflexivity.
    + reflexivity.
    + reflexivity.
    + reflexivity.
    + reflexivity.
    + reflexivity.
    + repeat constructor.
    + vm_compute. tauto.
    + intros s Hs. vm_compute in Hs.
      repeat (destruct Hs as [<-|Hs];
              [eexists; split;
               [reflexivity
               |vm_compute; split; intros H; first [reflexivity|discriminate H]]|]).
      destruct Hs.
  - intros P w.
    eapply (proj2 (@checkmate_highlight _ _ P "d1" "d7" None w _)).
    + reflexivity.
    + reflexivity.
    + intros t Ht. injection Ht as <-. left. reflexivity.
Defined.

(** C8, as stated, fails on "clears the slot".  Without [skipValidation],
    a7-a8 is recognised as a promotion and suspended; resolving the dialog
    with a queen runs the continuation once, the engine throws on the move
    (a8 holds a white rook), the error leaves [onSelect] and the slot still
    holds the request. *)
Lemma throwing_continuation_keeps_slot :
  let P := Toy.props_with false in
  let w := Toy.mounted (Toy.start Toy.sample_cells false false) in
  let w1 := fst (onMove P "a7" "a8" w) in
  let w2 := fst (onSelect P QUEEN w1) in
  dialog_onSelect (dialog w1) = Some (ResumeMove "a7" "a8") /\
  snd (onSelect P QUEEN w1) = Throw "Invalid move" /\
  resumed (log w2) = [(ResumeMove "a7" "a8", QUEEN)] /\
  isDialogActive (dialog w2) = true /\
  dialog_onSelect (dialog w2) = Some (ResumeMove "a7" "a8").
Proof. repeat split. Qed.

Lemma promotion_slot_witness :
  let P := Toy.props_with true in
  let w := fst (onMove P "b7" "b8"
                  (Toy.mounted (Toy.start Toy.promotion_cells false false))) in
  resumed (log (fst (onSelect P QUEEN w)))
  = (resumed (log w) ++ [(ResumeMove "b7" "b8", QUEEN)])%list /\
  (snd (onSelect P QUEEN w) = Ok tt ->
   dialog (fst (onSelect P QUEEN w)) = closed_dialog) /\
  (forall e, snd (onSelect P QUEEN w) = Throw e ->
   dialog (fst (onSelect P QUEEN w)) = dialog w) /\
  (skipValidation P = true -> snd (onSelect P QUEEN w) = Ok tt).
Proof.
  intros P w.
  apply (proj2 (@promotion_slot _ _ P w) (ResumeMove "b7" "b8") QUEEN).
  reflexivity.
Defined.


(** * Further properties of the contexts *)

(** ** Selecting a piece, in either mode *)

Section Selection_any_mode.

Context {St : Type} {engine : ChessEngine St}.
Variable props : ChessboardProps.

(** [onSelectPiece] returns normally in either mode, whatever the engine
    does; it records the selected square and leaves the engine alone.  When
    [chess.moves] throws or returns [null] the selectable list is empty,
    otherwise each move string is mapped by [target_square]. *)
Theorem onSelectPiece_total (square : Square) (w : World St) :
  snd (onSelectPiece props square w) = Ok tt /\
  selectedSquare (fst (onSelectPiece props square w)) = Some square /\
  chess (fst (onSelectPiece props square w)) = chess w /\
  turn_value (fst (onSelectPiece props square w)) = turn_value w /\
  board_state (fst (onSelectPiece props square w)) = board_state w /\
  (skipValidation props = false ->
   selectableSquares (fst (onSelectPiece props square w)) =
     match chess_moves (chess w) square with
     | Ok (Some l) => map (target_square (chess w)) l
     | Ok None | Throw _ => []
     end).
Proof.
  unfold onSelectPiece, bind, try_catch, mutate, set_selectedSquare,
    set_selectableSquares, ret.
  destruct (skipValidation props); cbn.
  - repeat split. discriminate.
  - destruct (chess_moves (chess w) square) as [[l|]|e]; cbn; repeat split.
Qed.

End Selection_any_mode.

(** ** Move strings and target squares *)

(** The pieces of [s.split(c)]: there is a first one, none contains [c],
    the last one is a suffix of [s], and [s] is the only piece when it does
    not contain [c]. *)
Lemma split_pieces (c : ascii) (d s : string) :
  exists hd tl,
    split c s = hd :: tl /\
    Forall (fun piece => Label.includes c piece = false) (hd :: tl) /\
    suffix_of (last (hd :: tl) d) s /\
    (tl = [] -> hd = s) /\
    (Label.includes c s = false -> tl = []).
Proof.
  induction s as [|a s IH].
  - exists "", []. cbn. repeat split.
    + repeat constructor.
    + exists "". reflexivity.
  - destruct IH as (hd & tl & Hsp & Hall & [pre Hsuf] & Hone & Hnone).
    cbn [split Label.includes]. rewrite Hsp.
    destruct (Ascii.eqb c a) eqn:Eca.
    + exists "", (hd :: tl). repeat split.
      * constructor; [reflexivity|exact Hall].
      * exists (String a pre). cbn [append]. f_equal. exact Hsuf.
      * discriminate.
      * discriminate.
    + exists (String a hd), tl. repeat split.
      * inversion Hall as [|? ? Hhd Htl]; subst.
        constructor; [cbn; rewrite Eca, Hhd; reflexivity|exact Htl].
      * destruct tl as [|t tl'].
        -- exists "". cbn. f_equal. symmetry. apply Hone. reflexivity.
        -- exists (String a pre). cbn [append]. f_equal. exact Hsuf.
      * intros ->. f_equal. apply Hone. reflexivity.
      * cbn. exact Hnone.
Qed.

(** The last piece of [s.split(c)] when [s] ends with [c] followed by a
    string [t] without [c]: it is [t]. *)
Lemma last_split_after (c : ascii) (d t : string) :
  Label.includes c t = false ->
  forall pre,
    exists hd tl,
      split c (pre ++ String c t) = hd :: tl /\ tl <> [] /\ last tl d = t.
Proof.
  intros Ht.
  destruct (split_pieces c d t) as (hd0 & tl0 & Hsp & _ & _ & Hone & Hnone).
  assert (Hsplit : split c t = [t]).
  { rewrite Hsp, (Hnone Ht). f_equal. apply Hone. apply Hnone. exact Ht. }
  induction pre as [|a pre IH].
  - cbn [append split]. rewrite Ascii.eqb_refl, Hsplit.
    exists "", [t]. repeat split. discriminate.
  - destruct IH as (hd & tl & Hs & Hne & Hlast).
    cbn [append split]. rewrite Hs.
    destruct (Ascii.eqb c a).
    + exists "", (hd :: tl). repeat split; [discriminate|].
      destruct tl as [|x tl']; [congruence|]. exact Hlast.
    + exists (String a hd), tl. repeat split; assumption.
Qed.

(** A move string other than a castling is mapped to what follows its last
    [x]: whenever the string is [pre], an [x], and a rest [t] without [x],
    the result is [t] ([exd5] gives [d5]); a string without [x] is mapped
    to itself ([Nf3] stays [Nf3]). *)
Theorem target_square_suffix {St : Type} {engine : ChessEngine St}
    (e : St) (s : string) :
  s <> "O-O" -> s <> "O-O-O" ->
  (forall pre t, s = pre ++ "x" ++ t -> Label.includes "x" t = false ->
     target_square e s = t) /\
  (Label.includes "x" s = false -> target_square e s = s).
Proof.
  intros H1 H2. unfold target_square.
  apply String.eqb_neq in H1, H2. rewrite H1, H2. split.
  - intros pre t -> Ht.
    destruct (@last_split_after "x" (pre ++ "x" ++ t) t Ht pre)
      as (hd & tl & Hsp & Hne & Hlast).
    cbn [append] in *. rewrite Hsp.
    destruct tl as [|y tl']; [congruence|]. exact Hlast.
  - intros Hno.
    destruct (split_pieces "x" s s) as (hd & tl & Hsp & _ & _ & Hone & Hnone).
    rewrite Hsp, (Hnone Hno). cbn. apply Hone. apply Hnone. exact Hno.
Qed.

Lemma target_square_suffix_witness :
  target_square (Toy.start Toy.sample_cells false false) "exd5" = "d5" /\
  target_square (Toy.start Toy.sample_cells false false) "Nf3" = "Nf3".
Proof.
  split.
  - apply (proj1 (@target_square_suffix _ _ (Toy.start Toy.sample_cells false false)
                    "exd5" ltac:(discriminate) ltac:(discriminate)) "e" "d5");
      reflexivity.
  - apply (proj2 (@target_square_suffix _ _ (Toy.start Toy.sample_cells false false)
                    "Nf3" ltac:(discriminate) ltac:(discriminate))).
    reflexivity.
Defined.

(** ** Promotion detection: the guard and the strict failure *)

Section Promotion_guard.

Context {St : Type} {engine : ChessEngine St}.
Variable props : ChessboardProps.

(** [isPromoting] never changes the component state.  For a target square
    on ranks 2 to 7 it answers [false] without looking at [from] or at the
    engine, in either mode.  Without [skipValidation], for a target on rank
    8 or 1, a failure of [toTranslation] or of [chess.board()] is
    propagated. *)
Theorem isPromoting_guard (from to : Square) (w : World St) :
  fst (isPromoting props from to w) = w /\
  (forall f k, Label.parse to = Some (f, k) -> k <> 8 -> k <> 1 ->
     snd (isPromoting props from to w) = Ok false) /\
  (skipValidation props = false ->
   forall f k e, Label.parse to = Some (f, k) -> k = 8 \/ k = 1 ->
     toTranslation props from = Throw e \/
     ((exists v, toTranslation props from = Ok v) /\
      chess_board (chess w) = Throw e) ->
     snd (isPromoting props from to w) = Throw e).
Proof.
  split; [|split].
  - unfold isPromoting, try_catch, bind, lift, query, ret, throw.
    destruct (negb (Label.includes "8" to) && negb (Label.includes "1" to));
      [reflexivity|].
    destruct (toTranslation props from); cbn.
    + destruct (chess_board (chess w)); cbn; [reflexivity|].
      destruct (skipValidation props); reflexivity.
    + destruct (skipValidation props); reflexivity.
  - intros f k Hto H8 H1.
    destruct (includes_back_rank _ Hto) as [E8 E1].
    unfold isPromoting. rewrite E8, E1.
    replace (k =? 8) with false by (symmetry; apply Z.eqb_neq; exact H8).
    replace (k =? 1) with false by (symmetry; apply Z.eqb_neq; exact H1).
    reflexivity.
  - intros Hs f k e Hto Hk Hfail.
    destruct (includes_back_rank _ Hto) as [E8 E1].
    unfold isPromoting. rewrite E8, E1.
    assert (Hg : negb (k =? 8) && negb (k =? 1) = false)
      by (destruct Hk as [->| ->]; reflexivity).
    rewrite Hg. unfold try_catch, bind, lift, query, ret, throw. rewrite Hs.
    destruct Hfail as [Ht|[[v Ht] Hb]]; rewrite Ht; cbn; [reflexivity|].
    rewrite Hb. reflexivity.
Qed.

End Promotion_guard.

Lemma isPromoting_guard_witness :
  snd (isPromoting (engine := Toy.broken) (Toy.props_with false) "e2" "e4"
         (Toy.mount tt WHITE Toy.empty_cells)) = Ok false /\
  snd (isPromoting (engine := Toy.broken) (Toy.props_with false) "a7" "a8"
         (Toy.mount tt WHITE Toy.empty_cells)) = Throw "board".
Proof.
  split.
  - apply (proj1 (proj2 (isPromoting_guard (engine := Toy.broken)
                           (Toy.props_with false) "e2" "e4"
                           (Toy.mount tt WHITE Toy.empty_cells))) 4 4).
    + reflexivity.
    + discriminate.
    + discriminate.
  - apply (proj2 (proj2 (isPromoting_guard (engine := Toy.broken)
                           (Toy.props_with false) "a7" "a8"
                           (Toy.mount tt WHITE Toy.empty_cells)))
             eq_refl 0 8 "board").
    + reflexivity.
    + left. reflexivity.
    + right. split; [eexists; reflexivity|reflexivity].
Defined.

(** ** The king scan on any board *)

Section King_scan.

Context {St : Type} {engine : ChessEngine St}.
Variables (e : St) (c : Color).

Lemma scan_row_sound (x : Z) (ys : list Z) (rest : result (option Square))
    (k : Square) :
  scan_row e c x ys rest = Ok (Some k) ->
  (In k (map (Label.of_indices x) ys) /\
   exists p, chess_get e k = Ok p /\ is_king_of c p = true) \/
  rest = Ok (Some k).
Proof.
  induction ys as [|y ys IH]; cbn [scan_row map]; intros H; [right; exact H|].
  destruct (chess_get e (Label.of_indices x y)) as [p|err] eqn:Eg; [|discriminate].
  destruct (is_king_of c p) eqn:Ek.
  - injection H as <-. left. split; [left; reflexivity|]. exists p. split; assumption.
  - destruct (IH H) as [[Hin Hp]|Hr]; [left|right; exact Hr].
    split; [right; exact Hin|exact Hp].
Qed.

Lemma scan_rows_sound (rows : list (list (option Piece))) :
  forall x k,
    scan_rows e c x rows = Ok (Some k) ->
    In k (visited x rows) /\
    exists p, chess_get e k = Ok p /\ is_king_of c p = true.
Proof.
  induction rows as [|row rows IH]; intros x k H; [discriminate|].
  cbn [scan_rows visited] in *.
  destruct (scan_row_sound _ _ _ H) as [[Hin Hp]|Hr].
  - split; [apply in_or_app; left; exact Hin|exact Hp].
  - destruct (IH _ _ Hr) as [Hin Hp].
    split; [apply in_or_app; right; exact Hin|exact Hp].
Qed.

Lemma scan_row_absent (x : Z) (ys : list Z) (rest : result (option Square)) :
  (forall s, In s (map (Label.of_indices x) ys) ->
     exists p, chess_get e s = Ok p /\ is_king_of c p = false) ->
  scan_row e c x ys rest = rest.
Proof.
  induction ys as [|y ys IH]; intros Hall; [reflexivity|].
  cbn [scan_row map] in *.
  destruct (Hall _ (or_introl eq_refl)) as (p & -> & ->).
  apply IH. intros s Hs. apply Hall. right. exact Hs.
Qed.

Lemma scan_rows_absent (rows : list (list (option Piece))) :
  forall x,
    (forall s, In s (visited x rows) ->
       exists p, chess_get e s = Ok p /\ is_king_of c p = false) ->
    scan_rows e c x rows = Ok None.
Proof.
  induction rows as [|row rows IH]; intros x Hall; [reflexivity|].
  cbn [scan_rows visited] in *.
  rewrite scan_row_absent.
  - apply IH. intros s Hs. apply Hall. apply in_or_app. right. exact Hs.
  - intros s Hs. apply Hall. apply in_or_app. left. exact Hs.
Qed.

End King_scan.

Section King_lookup_any_board.

Context {St : Type} {engine : ChessEngine St}.
Variable props : ChessboardProps.

(** [findKing] never changes the component state and, with
    [skipValidation], never throws.  A square it returns is one the scan of
    the board visits, and the engine reports the king of the requested
    colour on it.  When every visited square can be read and none holds
    that king, it returns nothing, in either mode. *)
Theorem findKing_sound (c : Color) (w : World St) :
  fst (findKing props c w) = w /\
  (skipValidation props = true -> exists r, snd (findKing props c w) = Ok r) /\
  (forall k, snd (findKing props c w) = Ok (Some k) ->
     exists b p,
       chess_board (chess w) = Ok b /\ In k (visited 0 b) /\
       chess_get (chess w) k = Ok p /\ is_king_of c p = true) /\
  (forall b, chess_board (chess w) = Ok b ->
     (forall s, In s (visited 0 b) ->
        exists p, chess_get (chess w) s = Ok p /\ is_king_of c p = false) ->
     snd (findKing props c w) = Ok None).
Proof.
  unfold findKing, try_catch, query, ret, throw.
  split; [|split; [|split]].
  - destruct (findKing_scan c (chess w)); [reflexivity|].
    destruct (skipValidation props); reflexivity.
  - intros ->. destruct (findKing_scan c (chess w)); eexists; reflexivity.
  - intros k H.
    assert (Hscan : findKing_scan c (chess w) = Ok (Some k)).
    { destruct (findKing_scan c (chess w)) as [r|err]; [exact H|].
      destruct (skipValidation props); discriminate H. }
    unfold findKing_scan in Hscan.
    destruct (chess_board (chess w)) as [b|err]; [|discriminate].
    destruct (scan_rows_sound _ _ _ _ Hscan) as (Hin & p & Hp & Hk).
    exists b, p. repeat split; assumption.
  - intros b Hb Hall. unfold findKing_scan. rewrite Hb.
    rewrite scan_rows_absent; [reflexivity|exact Hall].
Qed.

End King_lookup_any_board.

Lemma findKing_sound_witness :
  let w := Toy.mounted (Toy.start Toy.sample_cells false false) in
  exists b p,
    chess_board (chess w) = Ok b /\ In "e8" (visited 0 b) /\
    chess_get (chess w) "e8" = Ok p /\ is_king_of BLACK p = true.
Proof.
  intro w.
  apply (proj1 (proj2 (proj2 (findKing_sound (Toy.props_with false) BLACK w))) "e8").
  reflexivity.
Defined.

(** ** The refs of the board-refs provider *)

Lemma all_squares_NoDup : NoDup Label.all_squares.
Proof.
  rewrite <- (eq_refl : nodup string_dec Label.all_squares = Label.all_squares)
    by reflexivity.
  apply NoDup_nodup.
Qed.

Lemma all_squares_are_squares (s : Square) :
  In s Label.all_squares <-> Label.is_square s = true.
Proof.
  split.
  - intros H. vm_compute in H.
    repeat (destruct H as [<-|H]; [reflexivity|]). destruct H.
  - unfold Label.is_square. destruct (Label.parse s) as [[f k]|] eqn:E; [|discriminate].
    intros _. pose proof (parse_bounds _ E) as [Hf Hk].
    rewrite <- (parse_of_indices _ E).
    assert (Hk' : 0 <= k - 1 < 8) by lia.
    remember (k - 1) as j eqn:Ej. assert (k = j + 1) by lia. subst k. clear Ej Hk E.
    range_cases Hf; range_cases Hk'; vm_compute; tauto.
Qed.

Section Board_refs.

Context {St : Type} {engine : ChessEngine St}.

(** Whether [chess.board()] returns an 8 x 8 matrix or throws (the
    provider then falls back to an empty 8 x 8 array), [generateBoardRefs]
    creates one ref for each of the 64 squares and nothing else: 64 keys,
    none repeated, exactly the well-formed square labels. *)
Theorem board_refs_cover_the_board (e : St) :
  (forall b, chess_board e = Ok b ->
     length b = 8%nat /\ Forall (fun row => length row = 8%nat) b) ->
  generateBoardRefs (render_board e) = Label.all_squares /\
  NoDup (generateBoardRefs (render_board e)) /\
  length (generateBoardRefs (render_board e)) = 64%nat /\
  (forall s, In s (generateBoardRefs (render_board e)) <-> Label.is_square s = true).
Proof.
  intros Hshape.
  assert (Hkeys : generateBoardRefs (render_board e) = Label.all_squares).
  { unfold generateBoardRefs, render_board.
    destruct (chess_board e) as [b|err].
    - destruct (Hshape b eq_refl) as [Hlen Hrows]. apply visited_8x8; assumption.
    - reflexivity. }
  rewrite Hkeys. repeat split.
  - apply all_squares_NoDup.
  - apply all_squares_are_squares.
  - apply all_squares_are_squares.
Qed.

End Board_refs.

Lemma board_refs_cover_the_board_witness :
  generateBoardRefs (render_board (engine := Toy.broken) tt) = Label.all_squares /\
  NoDup (generateBoardRefs (render_board (engine := Toy.broken) tt)) /\
  length (generateBoardRefs (render_board (engine := Toy.broken) tt)) = 64%nat /\
  (forall s, In s (generateBoardRefs (render_board (engine := Toy.broken) tt))
             <-> Label.is_square s = true).
Proof.
  apply (board_refs_cover_the_board (engine := Toy.broken) tt).
  intros b Hb. discriminate Hb.
Defined.

(** ** The move pipeline, in either mode *)

Section Pipeline_any_mode.

Context {St : Type} {engine : ChessEngine St}.
Variable props : ChessboardProps.

(** In either mode and on every path, [moveProgrammatically] emits, after
    its single [chess.move], at most one checkmate highlight, then at most
    one callback, then at most one board publication, in this order and
    nothing else.  The board store holds the published board if there is
    one, which is then the engine's board, and is untouched otherwise; the
    engine is left as the move call left it and the selection is not
    touched. *)
Theorem pipeline_order (from to : Square) (promotionPiece : option PieceSymbol)
    (w : World St) :
  let req := {| req_from := from; req_to := to; req_promotion := promotionPiece |} in
  let w' := fst (moveProgrammatically props from to promotionPiece w) in
  exists (h : option Square) (c : option MovePayload) (b : option Board),
    log w' =
      (log w ++ EngineMove req ::
         opt_event (fun k => Highlight k (Some (checkmateHighlight props))) h ++
         opt_event Callback c ++ opt_event SetBoard b)%list /\
    board_state w' = match b with Some brd => brd | None => board_state w end /\
    (forall brd, b = Some brd -> chess_board (chess w') = Ok brd) /\
    chess w' = fst (chess_move (chess w) req) /\
    selectableSquares w' = selectableSquares w /\
    selectedSquare w' = selectedSquare w.
Proof.
  intros req w'. subst req w'. run.
  repeat step; rewrite <- ?app_assoc; cbn [app];
    match goal with
    | |- exists h c b, (_ ++ _ :: ?l)%list = _ /\ _ =>
        let h := lazymatch l with
                 | context [Highlight ?k _] => constr:(Some k)
                 | _ => constr:(@None Square)
                 end in
        let c := lazymatch l with
                 | context [Callback ?p] => constr:(Some p)
                 | _ => constr:(@None MovePayload)
                 end in
        let b := lazymatch l with
                 | context [SetBoard ?x] => constr:(Some x)
                 | _ => constr:(@None Board)
                 end in
        exists h, c, b
    end;
    (split; [reflexivity|]); cbn;
    repeat split; try reflexivity; try discriminate;
    intros ? [= <-]; assumption.
Qed.

(** What a callback receives, in either mode: the [in_promotion] flag says
    whether a promotion piece was passed; the status is the engine's
    snapshot, or the all-false default when the snapshot throws, which
    only happens under [skipValidation]; the move is the one the engine
    returned, or the mock move when [chess.move] threw under
    [skipValidation].  No callback follows a [null] move. *)
Theorem callback_payload (from to : Square) (promotionPiece : option PieceSymbol)
    (w : World St) :
  let req := {| req_from := from; req_to := to; req_promotion := promotionPiece |} in
  let e' := fst (chess_move (chess w) req) in
  exists evs,
    log (fst (moveProgrammatically props from to promotionPiece w)) = (log w ++ evs)%list /\
    forall p, In p (callbacks evs) ->
      in_promotion (state p) =
        match promotionPiece with Some _ => true | None => false end /\
      status (state p) =
        match getChessboardState e' with Ok s => s | Throw _ => default_state end /\
      (forall err, getChessboardState e' = Throw err -> skipValidation props = true) /\
      match snd (chess_move (chess w) req) with
      | Ok (Some mv) => move p = mv
      | Ok None => False
      | Throw _ =>
          skipValidation props = true /\
          exists f, chess_fen e' = Ok f /\ move p = mock_move from to promotionPiece f f
      end.
Proof.
  intros req e'. subst req e'. run.
  repeat step; rewrite <- ?app_assoc; cbn [app];
    (eexists; split; [reflexivity|]);
    intros payload Hin; cbn in Hin;
    repeat (destruct Hin as [<-|Hin]; [|]); try (destruct Hin); cbn;
    repeat split; try reflexivity; try discriminate; try congruence;
    eexists; split; reflexivity.
Qed.

(** An error that leaves [moveProgrammatically] (which only happens
    without [skipValidation]) is never preceded by a board publication: the
    board store is as it was. *)
Theorem failure_publishes_nothing (from to : Square)
    (promotionPiece : option PieceSymbol) (w : World St) (err : string) :
  snd (moveProgrammatically props from to promotionPiece w) = Throw err ->
  skipValidation props = false /\
  board_state (fst (moveProgrammatically props from to promotionPiece w))
    = board_state w /\
  exists evs,
    log (fst (moveProgrammatically props from to promotionPiece w))
      = (log w ++ evs)%list /\
    published evs = [].
Proof.
  run.
  repeat step; rewrite <- ?app_assoc; cbn [app]; intros Hthrow;
    try discriminate Hthrow;
    (split; [reflexivity|]); (split; [reflexivity|]);
    eexists; (split; [reflexivity|]); reflexivity.
Qed.

(** Once the move step is over (the engine returned a move or [null], or
    the mock move could be built), the turn indicator is what
    [chess.turn()] returns, and keeps its value when that call throws; this
    holds also when the pipeline stops or fails later. *)
Theorem turn_refreshed_after_move (from to : Square)
    (promotionPiece : option PieceSymbol) (w : World St) (e' : St)
    (r : result (option Move)) :
  chess_move (chess w)
    {| req_from := from; req_to := to; req_promotion := promotionPiece |} = (e', r) ->
  (exists m, r = Ok m) \/
  (skipValidation props = true /\ exists f, chess_fen e' = Ok f) ->
  turn_value (fst (moveProgrammatically props from to promotionPiece w)) =
    match chess_turn e' with Ok t => t | Throw _ => turn_value w end.
Proof.
  intros Hm Hdone. run.
  destruct (skipValidation props) eqn:Hs; cbn; rewrite Hm; cbn.
  - destruct r as [m|err]; cbn.
    + repeat step; reflexivity.
    + destruct Hdone as [[m Hr]|[_ [f Hf]]]; [discriminate Hr|].
      rewrite Hf. cbn. repeat step; reflexivity.
  - destruct Hdone as [[m ->]|[Hs' _]]; [|discriminate Hs'].
    repeat step; reflexivity.
Qed.

(** In either mode, when the engine accepts the move and reports checkmate
    but the scan finds no king of the side to move, the pipeline returns
    normally right there: the turn indicator is updated and the engine has
    moved, but there is no highlight, no callback and no publication. *)
Theorem checkmate_without_king_returns_early (from to : Square)
    (promotionPiece : option PieceSymbol) (w : World St) (e' : St)
    (mv : Move) (t : Color) :
  chess_move (chess w)
    {| req_from := from; req_to := to; req_promotion := promotionPiece |}
    = (e', Ok (Some mv)) ->
  chess_turn e' = Ok t ->
  chess_isCheckmate e' = Ok true ->
  findKing_scan t e' = Ok None ->
  moveProgrammatically props from to promotionPiece w =
    ({| chess := e'; turn_value := t; board_state := board_state w;
        selectableSquares := selectableSquares w;
        selectedSquare := selectedSquare w; dialog := dialog w;
        log := log w ++ [EngineMove {| req_from := from; req_to := to;
                                       req_promotion := promotionPiece |}] |},
     Ok tt).
Proof.
  intros Hm Ht Hc Hk. run.
  destruct t, (skipValidation props); cbn; rewrite Hm; cbn;
    rewrite Ht; cbn; rewrite Hc; cbn; rewrite Ht; cbn; rewrite Hk; reflexivity.
Qed.

(** Without [skipValidation], when [moveProgrammatically] returns normally
    after the engine accepted the move, and did not stop for want of a
    king, the component is synchronised with the engine: the turn
    indicator is the engine's side to move, the board store is the
    engine's board, published once, and an installed callback was invoked
    once with the engine's move and snapshot. *)
Theorem strict_success_synchronises (from to : Square)
    (promotionPiece : option PieceSymbol) (w : World St) (e' : St) (mv : Move) :
  skipValidation props = false ->
  chess_move (chess w)
    {| req_from := from; req_to := to; req_promotion := promotionPiece |}
    = (e', Ok (Some mv)) ->
  snd (moveProgrammatically props from to promotionPiece w) = Ok tt ->
  ~ (chess_isCheckmate e' = Ok true /\
     exists t, chess_turn e' = Ok t /\ findKing_scan t e' = Ok None) ->
  let w' := fst (moveProgrammatically props from to promotionPiece w) in
  chess w' = e' /\
  chess_turn e' = Ok (turn_value w') /\
  chess_board e' = Ok (board_state w') /\
  exists evs,
    log w' = (log w ++ evs)%list /\
    published evs = [board_state w'] /\
    (forall cb, onChessboardMoveCallback props = Some cb ->
       exists s, getChessboardState e' = Ok s /\
         callbacks evs =
           [{| move := mv;
               state := {| status := s;
                           in_promotion :=
                             match promotionPiece with
                             | Some _ => true | None => false end |} |}]).
Proof.
  intros Hs Hm Hok Hnot w'. subst w'. revert Hok.
  destruct (chess_turn e') as [t|errt] eqn:Ht.
  - destruct (chess_isCheckmate e') as [[|]|errc] eqn:Hc.
    + destruct (findKing_scan t e') as [[k|]|errk] eqn:Hk.
      * destruct t; run; rewrite Hs, Hm; cbn;
          repeat (first [rewrite Ht | rewrite Hc | rewrite Hk | step]; cbn);
          rewrite <- ?app_assoc; cbn [app]; intros Hok; try discriminate Hok;
          repeat (split; [reflexivity|]);
          eexists; (split; [reflexivity|]); (split; [reflexivity|]);
          intros cb0 Hcb; try discriminate Hcb; eexists; split; reflexivity.
      * exfalso. apply Hnot. split; [reflexivity|]. exists t. split; [reflexivity|exact Hk].
      * destruct t; run; rewrite Hs, Hm; cbn;
          repeat (first [rewrite Ht | rewrite Hc | rewrite Hk | step]; cbn);
          intros Hok; discriminate Hok.
    + run; rewrite Hs, Hm; cbn;
        repeat (first [rewrite Ht | rewrite Hc | step]; cbn);
        rewrite <- ?app_assoc; cbn [app]; intros Hok; try discriminate Hok;
        repeat (split; [reflexivity|]);
        eexists; (split; [reflexivity|]); (split; [reflexivity|]);
        intros cb0 Hcb; try discriminate Hcb; eexists; split; reflexivity.
    + run; rewrite Hs, Hm; cbn;
        repeat (first [rewrite Ht | rewrite Hc | step]; cbn);
        intros Hok; discriminate Hok.
  - run; rewrite Hs, Hm; cbn;
      repeat (first [rewrite Ht | step]; cbn);
      intros Hok; discriminate Hok.
Qed.

End Pipeline_any_mode.

(** ** The imperative handle: undo, resetBoard, reset *)

Section Imperative_handle.

Context {St : Type} {engine : ChessEngine St}.
Variable props : ChessboardProps.

(** [undo] calls [chess.undo()] once and never touches the turn indicator,
    the promotion slot or the selection.  When the undo and the following
    [chess.board()] succeed, that board is published; when either throws,
    nothing is published and the board store keeps its value, the error
    being propagated unless [skipValidation] is set. *)
Theorem undo_effect (w : World St) :
  let e' := fst (chess_undo (chess w)) in
  let w' := fst (undo props w) in
  chess w' = e' /\
  turn_value w' = turn_value w /\
  dialog w' = dialog w /\
  selectableSquares w' = selectableSquares w /\
  selectedSquare w' = selectedSquare w /\
  (forall b, snd (chess_undo (chess w)) = Ok tt -> chess_board e' = Ok b ->
     board_state w' = b /\
     log w' = (log w ++ [EngineUndo; SetBoard b])%list /\
     snd (undo props w) = Ok tt) /\
  (forall err,
     snd (chess_undo (chess w)) = Throw err \/
     (snd (chess_undo (chess w)) = Ok tt /\ chess_board e' = Throw err) ->
     board_state w' = board_state w /\
     log w' = (log w ++ [EngineUndo])%list /\
     snd (undo props w) = if skipValidation props then Ok tt else Throw err).
Proof.
  intros e' w'. subst e' w'. run.
  destruct (chess_undo (chess w)) as [e1 [[]|err1]]; cbn;
    [destruct (chess_board e1) as [b|err2]; cbn|];
    try (destruct (skipValidation props); cbn);
    do 5 (split; [reflexivity|]); rewrite <- ?app_assoc; cbn [app];
    (split;
     [intros b0 Hu Hb0; try discriminate Hu; try discriminate Hb0;
      injection Hb0 as <-; repeat split
     |intros err [Hu|[Hu Hb0]]; try discriminate Hu; try discriminate Hb0;
      first [injection Hu as <- | injection Hb0 as <-]; repeat split]).
Qed.

(** [resetBoard] always starts with [chess.reset()].  It calls
    [chess.load] only for a non-empty position string, after a successful
    reset, and with the [skipValidation] flag; when the reset or the load
    throws, nothing is published and the board store keeps its value,
    although the engine keeps what those calls did.  The turn indicator is
    never touched. *)
Theorem resetBoard_calls (fen : option string) (w : World St) :
  let w' := fst (resetBoard props fen w) in
  let e1 := fst (chess_reset (chess w)) in
  turn_value w' = turn_value w /\
  exists evs,
    log w' = (log w ++ EngineReset :: evs)%list /\
    (fen = None \/ fen = Some "" -> forall f, ~ In (EngineLoad f) evs) /\
    (forall err, snd (chess_reset (chess w)) = Throw err ->
       evs = [] /\ chess w' = e1 /\ board_state w' = board_state w) /\
    (forall f, fen = Some f -> f <> "" -> snd (chess_reset (chess w)) = Ok tt ->
       chess w' = fst (chess_load e1 f (skipValidation props)) /\
       exists evs', evs = EngineLoad f :: evs' /\
         (forall err, snd (chess_load e1 f (skipValidation props)) = Throw err ->
            evs' = [] /\ board_state w' = board_state w)).
Proof.
  intros w' e1. subst w' e1. unfold resetBoard. run.
  destruct (skipValidation props) eqn:Hs;
    (destruct (chess_reset (chess w)) as [e1 [[]|err1]]; cbn;
     [destruct fen as [f|]; cbn;
      [destruct (String.eqb f "") eqn:Ef; cbn;
       [|destruct (chess_load e1 f _) as [e2 [[]|err3]] eqn:El; cbn]|]|]).
  all: try match goal with
           | |- context [chess_board ?e] => destruct (chess_board e) as [b|err2]; cbn
           end.
  all: (split; [reflexivity|]); rewrite <- ?app_assoc; cbn [app];
    eexists; (split; [reflexivity|]).
  all: split;
    [intros Hfen f0 Hin; cbn in Hin;
     repeat (destruct Hin as [Hin|Hin]; [try discriminate Hin|]);
     try (destruct Hin);
     destruct Hfen as [Hfen|Hfen]; try discriminate Hfen;
     injection Hfen as ->; discriminate Ef
    |split;
     [intros err Hr; try discriminate Hr; repeat split
     |intros f0 Hf Hne Hr; try discriminate Hf; try discriminate Hr;
      injection Hf as <-;
      try (apply String.eqb_eq in Ef; congruence);
      rewrite ?El; cbn;
      (split; [reflexivity|]); eexists; (split; [reflexivity|]);
      intros err Hl; try discriminate Hl; split; reflexivity]].
Qed.

(** [reset] of the board-operations handle empties the selectable squares
    and asks for the highlights to be reset, then re-reads the turn: the
    turn indicator becomes the engine's side to move.  The read is not
    guarded: when [chess.turn()] throws, [reset] throws in either mode and
    the turn indicator keeps its value. *)
Theorem reset_rereads_turn (w : World St) :
  selectableSquares (fst (reset w)) = [] /\
  log (fst (reset w)) = (log w ++ [ResetAllHighlights])%list /\
  chess (fst (reset w)) = chess w /\
  board_state (fst (reset w)) = board_state w /\
  (forall t, chess_turn (chess w) = Ok t ->
     turn_value (fst (reset w)) = t /\ snd (reset w) = Ok tt) /\
  (forall err, chess_turn (chess w) = Throw err ->
     turn_value (fst (reset w)) = turn_value w /\ snd (reset w) = Throw err).
Proof.
  unfold reset. run. cbn.
  destruct (chess_turn (chess w)) as [t|err]; cbn;
    rewrite <- ?app_assoc; cbn [app];
    do 4 (split; [reflexivity|]);
    (split; [intros t0 H|intros e0 H]); try discriminate H;
    injection H as <-; split; reflexivity.
Qed.

(** An undo followed by a reset brings the component back in step with the
    engine: when the engine calls succeed, the board store is the engine's
    board and the turn indicator is the engine's side to move (an undo
    alone leaves the turn indicator as it was). *)
Theorem undo_then_reset_synchronises (w : World St) (b : Board) (t : Color) :
  let e' := fst (chess_undo (chess w)) in
  snd (chess_undo (chess w)) = Ok tt ->
  chess_board e' = Ok b ->
  chess_turn e' = Ok t ->
  let w' := fst ((undo props ;; reset) w) in
  snd ((undo props ;; reset) w) = Ok tt /\
  chess w' = e' /\
  chess_board (chess w') = Ok (board_state w') /\
  chess_turn (chess w') = Ok (turn_value w') /\
  selectableSquares w' = [].
Proof.
  intros e' Hu Hb Ht w'. subst e' w'. unfold reset. run.
  destruct (chess_undo (chess w)) as [e1 r1]. cbn in *. subst r1. cbn.
  rewrite Hb. cbn. rewrite Ht. cbn. rewrite Hb, Ht. repeat split.
Qed.

End Imperative_handle.

(** ** The entry point [onMove] and the dialog's [onSelect] *)

Section Entry_points.

Context {St : Type} {engine : ChessEngine St}.
Variable props : ChessboardProps.

Lemma moveProgrammatically_selection (from to : Square)
    (promotionPiece : option PieceSymbol) (w : World St) :
  selectableSquares (fst (moveProgrammatically props from to promotionPiece w))
    = selectableSquares w /\
  selectedSquare (fst (moveProgrammatically props from to promotionPiece w))
    = selectedSquare w.
Proof. run. repeat step; split; reflexivity. Qed.

(** Whatever follows, [onMove] first clears the selection and asks for the
    highlights to be reset and for [from] and [to] to be highlighted; the
    selection is still empty when it returns or throws.  It makes at most
    one [chess.move] call, and that call carries no promotion piece. *)
Theorem onMove_preamble (from to : Square) (w : World St) :
  let w' := fst (onMove props from to w) in
  selectableSquares w' = [] /\
  selectedSquare w' = None /\
  exists evs,
    log w' = (log w ++ ResetAllHighlights :: Highlight from None ::
                Highlight to None :: evs)%list /\
    (engine_moves evs = [] \/
     engine_moves evs =
       [{| req_from := from; req_to := to; req_promotion := None |}]).
Proof.
  intros w'. subst w'. run_shell. cbn.
  match goal with
  | |- context [isPromoting props from to ?w0] =>
      pose proof (isPromoting_frame props from to w0) as Hfr;
      destruct (isPromoting props from to w0) as [w1 r] eqn:Hp
  end.
  cbn in Hfr. subst w1.
  destruct r as [[|]|err]; cbn.
  - destruct (chess_turn (chess w)) as [t|err]; cbn;
      (split; [reflexivity|]); (split; [reflexivity|]);
      rewrite <- ?app_assoc; cbn [app];
      eexists; (split; [reflexivity|]); left; reflexivity.
  - match goal with
    | |- context [moveProgrammatically props from to None ?w0] =>
        pose proof (moveProgrammatically_frame props from to None w0)
          as (evs & Hlog & Hem & _ & _);
        pose proof (moveProgrammatically_selection from to None w0) as [Hs1 Hs2]
    end.
    cbn in Hlog, Hs1, Hs2.
    split; [exact Hs1|]. split; [exact Hs2|].
    rewrite Hlog, <- !app_assoc. cbn [app].
    eexists; split; [reflexivity|]. right.
    unfold engine_moves in *. cbn. rewrite Hem. reflexivity.
  - (split; [reflexivity|]); (split; [reflexivity|]).
    rewrite <- ?app_assoc; cbn [app].
    eexists; (split; [reflexivity|]); left; reflexivity.
Qed.

(** With [skipValidation], [onMove] can still throw, in exactly one
    situation: the move is recognised as a promotion and the unguarded
    [chess.turn()] that fills the dialog type throws. *)
Theorem onMove_permissive_failure (from to : Square) (w : World St)
    (err : string) :
  skipValidation props = true ->
  (snd (onMove props from to w) = Throw err <->
   snd (isPromoting props from to w) = Ok true /\
   chess_turn (chess w) = Throw err).
Proof.
  intros Hs. run_shell. cbn.
  match goal with
  | |- context [isPromoting props from to ?w0] =>
      pose proof (isPromoting_frame props from to w0) as Hfr;
      pose proof (isPromoting_engine_only props from to w0 w eq_refl) as Heng;
      destruct (isPromoting_permissive_total props from to w0 Hs) as [r Hr];
      destruct (isPromoting props from to w0) as [w1 r1] eqn:Hp
  end.
  cbn in Hfr, Heng, Hr. rewrite <- Heng. clear Heng. subst w1 r1.
  destruct r; cbn.
  - destruct (chess_turn (chess w)) as [t|e]; cbn.
    + split; [discriminate|intros [_ H]; discriminate H].
    + split; [intros [= ->]; split; reflexivity|intros [_ [= ->]]; reflexivity].
  - match goal with
    | |- context [moveProgrammatically props from to None ?w0] =>
        rewrite (moveProgrammatically_safe props from to None w0 Hs)
    end.
    split; [discriminate|intros [H _]; discriminate H].
Qed.

(** Once [onSelect] has returned normally the slot is empty: a second
    [onSelect] runs nothing, calls nothing and changes nothing. *)
Theorem onSelect_twice (p1 p2 : PieceSymbol) (w : World St) :
  snd (onSelect props p1 w) = Ok tt ->
  onSelect props p2 (fst (onSelect props p1 w)) = (fst (onSelect props p1 w), Ok tt).
Proof.
  run_shell.
  destruct (dialog_onSelect (dialog w)) as [[from to]|]; cbn.
  - match goal with
    | |- context [moveProgrammatically props from to (Some p1) ?w0] =>
        destruct (moveProgrammatically props from to (Some p1) w0)
          as [w1 [[]|err]]
    end; cbn; [reflexivity|discriminate].
  - reflexivity.
Qed.

End Entry_points.

(** ** Further runs on the sample engine *)

Lemma callback_payload_witness :
  let P := Toy.props_with false in
  let w := Toy.mounted (Toy.start Toy.promotion_cells false false) in
  let req := {| req_from := "b7"; req_to := "b8"; req_promotion := Some QUEEN |} in
  let e' := fst (chess_move (chess w) req) in
  exists evs,
    log (fst (moveProgrammatically P "b7" "b8" (Some QUEEN) w)) = (log w ++ evs)%list /\
    forall p, In p (callbacks evs) ->
      in_promotion (state p) = true /\
      status (state p) =
        match getChessboardState e' with Ok s => s | Throw _ => default_state end /\
      (forall err, getChessboardState e' = Throw err -> skipValidation P = true) /\
      match snd (chess_move (chess w) req) with
      | Ok (Some mv) => move p = mv
      | Ok None => False
      | Throw _ =>
          skipValidation P = true /\
          exists f, chess_fen e' = Ok f /\
                    move p = mock_move "b7" "b8" (Some QUEEN) f f
      end.
Proof.
  intros P w.
  exact (callback_payload P "b7" "b8" (Some QUEEN) w).
Defined.

Lemma failure_publishes_nothing_witness :
  let P := Toy.props_with false in
  let w := Toy.mounted (Toy.start Toy.sample_cells false false) in
  skipValidation P = false /\
  board_state (fst (moveProgrammatically P "a7" "a8" None w)) = board_state w /\
  exists evs,
    log (fst (moveProgrammatically P "a7" "a8" None w)) = (log w ++ evs)%list /\
    published evs = [].
Proof.
  intros P w.
  apply (@failure_publishes_nothing _ _ P "a7" "a8" None w "Invalid move").
  reflexivity.
Defined.

Lemma turn_refreshed_after_move_witness :
  let P := Toy.props_with false in
  let w := Toy.mounted (Toy.start Toy.sample_cells false false) in
  turn_value (fst (moveProgrammatically P "e2" "e4" None w)) = BLACK.
Proof.
  intros P w.
  destruct (Toy.apply_move (chess w)
              {| req_from := "e2"; req_to := "e4"; req_promotion := None |})
    as [e' r] eqn:Hm.
  pose proof (@turn_refreshed_after_move _ _ P "e2" "e4" None w e' r Hm) as H.
  vm_compute in Hm. injection Hm as <- <-.
  apply H. left. eexists. reflexivity.
Defined.

Lemma checkmate_without_king_returns_early_witness :
  let P := Toy.props_with false in
  let w := Toy.mounted (Toy.start Toy.kingless_cells true false) in
  snd (moveProgrammatically P "e2" "e4" None w) = Ok tt /\
  callbacks (log (fst (moveProgrammatically P "e2" "e4" None w))) = [] /\
  published (log (fst (moveProgrammatically P "e2" "e4" None w))) = [] /\
  turn_value (fst (moveProgrammatically P "e2" "e4" None w)) = BLACK.
Proof.
  intros P w.
  destruct (Toy.apply_move (chess w)
              {| req_from := "e2"; req_to := "e4"; req_promotion := None |})
    as [e' r] eqn:Hm.
  vm_compute in Hm. injection Hm as <- <-.
  erewrite (@checkmate_without_king_returns_early _ _ P "e2" "e4" None w _ _ BLACK).
  - repeat split.
  - reflexivity.
  - reflexivity.
  - reflexivity.
  - reflexivity.
Defined.

Lemma strict_success_synchronises_witness :
  let P := Toy.props_with false in
  let w := Toy.mounted (Toy.start Toy.sample_cells false false) in
  let w' := fst (moveProgrammatically P "e2" "e4" None w) in
  chess_turn (chess w') = Ok (turn_value w') /\
  chess_board (chess w') = Ok (board_state w').
Proof.
  intros P w w'.
  destruct (Toy.apply_move (chess w)
              {| req_from := "e2"; req_to := "e4"; req_promotion := None |})
    as [e' [[mv|]|err]] eqn:Hm; try (vm_compute in Hm; discriminate Hm).
  assert (He : chess w' = e') by (vm_compute in Hm; injection Hm as <- _; reflexivity).
  destruct (@strict_success_synchronises _ _ P "e2" "e4" None w e' mv)
    as (_ & Ht & Hb & _).
  - reflexivity.
  - exact Hm.
  - reflexivity.
  - vm_compute in Hm. injection Hm as <- _. intros [H _]. discriminate H.
  - rewrite He. split; assumption.
Defined.

Lemma undo_effect_witness :
  let P := Toy.props_with false in
  let w0 := Toy.mounted (Toy.start Toy.sample_cells false false) in
  let w := fst (moveProgrammatically P "e2" "e4" None w0) in
  board_state (fst (undo P w)) = Toy.sample_cells /\
  log (fst (undo P w)) = (log w ++ [EngineUndo; SetBoard Toy.sample_cells])%list /\
  snd (undo P w) = Ok tt.
Proof.
  intros P w0 w.
  apply (proj1 (proj2 (proj2 (proj2 (proj2 (proj2 (undo_effect P w))))))
           Toy.sample_cells); reflexivity.
Defined.

Lemma resetBoard_calls_witness :
  let P := Toy.props_with false in
  let w := Toy.mounted (Toy.start Toy.sample_cells false false) in
  turn_value (fst (resetBoard P (Some "8/8/8/8/8/8/8/8") w)) = turn_value w /\
  board_state (fst (resetBoard P (Some "8/8/8/8/8/8/8/8") w)) = Toy.sample_cells /\
  Toy.cells (chess (fst (resetBoard P (Some "8/8/8/8/8/8/8/8") w))) = Toy.empty_cells.
Proof.
  intros P w.
  destruct (resetBoard_calls P (Some "8/8/8/8/8/8/8/8") w)
    as (Ht & evs & Hlog & _ & _ & Hload).
  destruct (Hload "8/8/8/8/8/8/8/8" eq_refl) as (Hc & evs' & _ & Hthrow).
  - discriminate.
  - reflexivity.
  - destruct (Hthrow "Invalid FEN" eq_refl) as [_ Hb].
    split; [exact Ht|]. split; [exact Hb|]. rewrite Hc. reflexivity.
Defined.

Lemma reset_rereads_turn_witness :
  let P := Toy.props_with false in
  let w0 := Toy.mounted (Toy.start Toy.sample_cells false false) in
  let w := fst (undo P (fst (moveProgrammatically P "e2" "e4" None w0))) in
  turn_value w = BLACK /\
  turn_value (fst (reset w)) = WHITE /\ snd (reset w) = Ok tt.
Proof.
  intros P w0 w. split; [reflexivity|].
  apply (proj1 (proj2 (proj2 (proj2 (proj2 (reset_rereads_turn w))))) WHITE).
  reflexivity.
Defined.

Lemma undo_then_reset_synchronises_witness :
  let P := Toy.props_with false in
  let w0 := Toy.mounted (Toy.start Toy.sample_cells false false) in
  let w := fst (moveProgrammatically P "e2" "e4" None w0) in
  let w' := fst ((undo P ;; reset) w) in
  snd ((undo P ;; reset) w) = Ok tt /\
  chess w' = fst (chess_undo (chess w)) /\
  chess_board (chess w') = Ok (board_state w') /\
  chess_turn (chess w') = Ok (turn_value w') /\
  selectableSquares w' = [].
Proof.
  intros P w0 w.
  apply (@undo_then_reset_synchronises _ _ P w Toy.sample_cells WHITE); reflexivity.
Defined.

Lemma onMove_permissive_failure_witness :
  let P := Toy.props_with true in
  let w := Toy.mounted (Toy.start Toy.promotion_cells false false) in
  snd (onMove (engine := turnless) P "b7" "b8" w) = Throw "turn".
Proof.
  intros P w.
  apply (proj2 (@onMove_permissive_failure _ turnless P "b7" "b8" w "turn" eq_refl)).
  split; reflexivity.
Defined.

Lemma onSelect_twice_witness :
  let P := Toy.props_with true in
  let w := fst (onMove P "b7" "b8"
                  (Toy.mounted (Toy.start Toy.promotion_cells false false))) in
  onSelect P ROOK (fst (onSelect P QUEEN w)) = (fst (onSelect P QUEEN w), Ok tt).
Proof.
  intros P w. apply (@onSelect_twice _ _ P QUEEN ROOK w). reflexivity.
Defined.

Lemma onSelectPiece_total_witness :
  let P := Toy.props_with false in
  let w := Toy.mounted (Toy.start Toy.sample_cells false false) in
  snd (onSelectPiece (engine := Toy.broken) P "e2" (Toy.mount tt WHITE Toy.empty_cells))
    = Ok tt /\
  selectableSquares (fst (onSelectPiece P "e2" w)) = [].
Proof.
  intros P w. split.
  - apply (onSelectPiece_total (engine := Toy.broken) P "e2"
             (Toy.mount tt WHITE Toy.empty_cells)).
  - exact (proj2 (proj2 (proj2 (proj2 (proj2 (onSelectPiece_total P "e2" w)))))
             eq_refl).
Defined.

Lemma pipeline_order_witness :
  let P := Toy.props_with false in
  let w := Toy.mounted (Toy.start Toy.sample_cells true false) in
  let req := {| req_from := "d1"; req_to := "d7"; req_promotion := None |} in
  let w' := fst (moveProgrammatically P "d1" "d7" None w) in
  exists (h : option Square) (c : option MovePayload) (b : option Board),
    log w' =
      (log w ++ EngineMove req ::
         opt_event (fun k => Highlight k (Some (checkmateHighlight P))) h ++
         opt_event Callback c ++ opt_event SetBoard b)%list /\
    board_state w' = match b with Some brd => brd | None => board_state w end /\
    (forall brd, b = Some brd -> chess_board (chess w') = Ok brd) /\
    chess w' = fst (chess_move (chess w) req) /\
    selectableSquares w' = selectableSquares w /\
    selectedSquare w' = selectedSquare w.
Proof.
  intros P w.
  exact (pipeline_order P "d1" "d7" None w).
Defined.

Lemma onMove_preamble_witness :
  let P := Toy.props_with false in
  let w := Toy.mounted (Toy.start Toy.sample_cells false false) in
  let w' := fst (onMove P "e2" "e4" w) in
  selectableSquares w' = [] /\
  selectedSquare w' = None /\
  exists evs,
    log w' = (log w ++ ResetAllHighlights :: Highlight "e2" None ::
                Highlight "e4" None :: evs)%list /\
    (engine_moves evs = [] \/
     engine_moves evs =
       [{| req_from := "e2"; req_to := "e4"; req_promotion := None |}]).
Proof.
  intros P w.
  exact (onMove_preamble P "e2" "e4" w).
Defined.
